(** * Event distribution engine of bk-cmdb: a shallow embedding

    The development follows the Go sources
      - source_controller/coreservice/cache/business/lock.go
      - scene_server/event_server/service/watch.go
      - scene_server/event_server/distribution/distributer.go
      - scene_server/event_server/distribution/event.go
    Shared maps are [gmap]s, Go integers are [Z], strings are [string],
    mutation is explicit state passing.  Mutexes are not modelled: every
    operation is one sequential state transformer.

    Part I holds the definitions, Part II the theorems. *)

(** Part III holds further properties of the same sources. *)

From Stdlib Require Import ZArith Ascii String List Lia DecimalString.
From Stdlib Require Import DecimalPos DecimalZ.
From stdpp Require Import base option list strings gmap fin_maps.
Import ListNotations.

Set Warnings "-register-all".
Local Open Scope string_scope.
Local Open Scope list_scope.
Local Open Scope Z_scope.

(** * Part I: definitions *)

(** ** Pieces of the Go runtime and standard library used by the sources *)
Module Go.

(** Go [error] values: the message is all the sources ever look at. *)
Definition error : Type := string.

(** [strconv.Itoa], [strconv.FormatInt(_, 10)] and [fmt.Sprint] on an
    integer: the decimal numeral, with a leading minus sign. *)
Definition Itoa (n : Z) : string := NilZero.string_of_int (Z.to_int n).

(** What [fmt.Sprintf] prints for the verb [%s] given an [int64]: the verb
    does not fit the operand, and fmt writes its bad-verb form. *)
Definition Sprintf_s_int64 (n : Z) : string := "%!s(int64=" +:+ Itoa n +:+ ")".

(** [strings.Split(s, sep)] for a one-byte separator.  The result is never
    empty: [Split("", ",")] is the one-element slice holding the empty
    string. *)
Fixpoint Split (sep : ascii) (s : string) : list string :=
  match s with
  | EmptyString => [EmptyString]
  | String c s' =>
      if Ascii.eqb c sep then EmptyString :: Split sep s'
      else match Split sep s' with
           | w :: ws => String c w :: ws
           | [] => [String c EmptyString]
           end
  end.

(** The byte [sep] does not occur in [s]. *)
Fixpoint free_of (sep : ascii) (s : string) : bool :=
  match s with
  | EmptyString => true
  | String c s' => negb (Ascii.eqb c sep) && free_of sep s'
  end.

(** Two's complement wrap-around of [int64] arithmetic. *)
Definition wrap64 (z : Z) : Z := (z + 2 ^ 63) mod 2 ^ 64 - 2 ^ 63.

(** The result of a call that may panic instead of returning. *)
Inductive outcome (A : Type) : Type :=
| Returns (a : A)
| Panics (msg : string).
Arguments Returns {A} a.
Arguments Panics {A} msg.

(** The result of a library call that returns a value and an error. *)
Inductive result (A : Type) : Type :=
| Ok (a : A)
| Err (e : error).
Arguments Ok {A} a.
Arguments Err {A} e.

(** A [time.Time] (also behind [metadata.Time]); the sources read it only
    through [Unix()], the whole seconds since the epoch. *)
Record Time : Type := { Unix : Z }.

(** A reading of the clock at its full resolution, as [time.Now()] gives
    it: the whole seconds since the epoch and the nanoseconds within the
    second, from 0 to 999999999.  [Unix()] gives the seconds and forgets the
    rest. *)
Record Instant : Type := { Seconds : Z; Nanoseconds : Z }.

Definition UnixOf (i : Instant) : Time := {| Unix := Seconds i |}.

(** [later.Sub(earlier)]: the nanoseconds from one instant to the other. *)
Definition Sub (later earlier : Instant) : Z :=
  (Seconds later - Seconds earlier) * 1000000000 + (Nanoseconds later - Nanoseconds earlier).

(** Values of type [interface{}] as [encoding/json] decodes them: nil, bool,
    number, string, slice, and [map[string]interface{}] (here an association
    list read by key). *)
Inductive JSON : Type :=
| JNull
| JBool (b : bool)
| JNumber (n : Z)
| JString (s : string)
| JArray (items : list JSON)
| JObject (fields : list (string * JSON)).

(** [m[key]] on a [map[string]interface{}]: nil when the key is missing. *)
Fixpoint index (key : string) (fields : list (string * JSON)) : JSON :=
  match fields with
  | [] => JNull
  | (k, v) :: rest => if String.eqb k key then v else index key rest
  end.

(** The integer a string stands for as redis reads it: the string must be
    the decimal numeral of the integer, as [Itoa] writes it (no plus sign,
    no leading zero, no "-0", not empty). *)
Definition Atoi (s : string) : option Z :=
  match NilZero.int_of_string s with
  | Some d => if String.eqb (Itoa (Z.of_int d)) s then Some (Z.of_int d) else None
  | None => None
  end.

End Go.

(** ** lock.go: the refresh lock table *)
Module Lock.

(** [canRefresh] on the table [refreshingLock.refreshing] (key -> is
    refreshing): the returned flag and the table afterwards. *)
Definition canRefresh (key : string) (r : gmap string bool) : bool * gmap string bool :=
  match r !! key with
  | None => (true, <[key := false]> r)
  | Some refreshing => (negb refreshing, r)
  end.

Definition setRefreshing (key : string) (r : gmap string bool) : gmap string bool :=
  <[key := true]> r.

Definition setUnRefreshing (key : string) (r : gmap string bool) : gmap string bool :=
  <[key := false]> r.

(** [canRefresh] in the two steps its mutex separates: the read of the
    entry, under the lock, and what follows the unlock, which for a missing
    key writes the entry. *)
Definition canRefreshRead (key : string) (r : gmap string bool) : option bool := r !! key.

Definition canRefreshFinish (key : string) (seen : option bool) (r : gmap string bool)
    : bool * gmap string bool :=
  match seen with
  | None => (true, <[key := false]> r)
  | Some refreshing => (negb refreshing, r)
  end.

(** A key is marked in progress when the table holds [true] for it. *)
Definition inProgress (key : string) (r : gmap string bool) : Prop :=
  r !! key = Some true.

(** The calls any caller can make on the table. *)
Inductive call : Type :=
| CanRefresh (key : string)
| SetRefreshing (key : string)
| SetUnRefreshing (key : string).

Definition exec (c : call) (r : gmap string bool) : gmap string bool :=
  match c with
  | CanRefresh k => snd (canRefresh k r)
  | SetRefreshing k => setRefreshing k r
  | SetUnRefreshing k => setUnRefreshing k r
  end.

(** The table after a sequence of calls, first call first. *)
Definition run (cs : list call) (r : gmap string bool) : gmap string bool :=
  foldl (fun r c => exec c r) r cs.

(** The call is a [canRefresh]. *)
Definition asks (c : call) : Prop :=
  match c with CanRefresh _ => True | _ => False end.

(** The key a call is about. *)
Definition keyOf (c : call) : string :=
  match c with
  | CanRefresh k => k
  | SetRefreshing k => k
  | SetUnRefreshing k => k
  end.

End Lock.

(** ** The redis client of gopkg.in/redis.v5, as far as the sources use it.
    The connection is taken to be up: a command fails only as redis itself
    answers it. *)
Module Redis.

Record Cache : Type := {
  strings : gmap string string;
  lists : gmap string (list string);
  hashes : gmap string (gmap string Z)
}.

Definition empty : Cache := {| strings := ∅; lists := ∅; hashes := ∅ |}.

(** [redis.Nil], the reply for a key that does not exist. *)
Definition Nil : Go.error := "redis: nil".

(** [Get(key).Result()]: the value and the error.  A missing key is
    reported as the error [redis.Nil]. *)
Definition Get (key : string) (c : Cache) : string * option Go.error :=
  match strings c !! key with
  | Some val => (val, None)
  | None => ("", Some Nil)
  end.

(** [LPush(key, v)]: [v] becomes the head of the list. *)
Definition LPush (key v : string) (c : Cache) : Cache :=
  {| strings := strings c;
     lists := <[key := v :: default [] (lists c !! key)]> (lists c);
     hashes := hashes c |}.

(** [BLPop(timeout, key)]: the head of the list leaves it; [None] is the
    empty reply after the timeout.  Redis drops a list that became empty. *)
Definition BLPop (key : string) (c : Cache) : option (string * string) * Cache :=
  match lists c !! key with
  | Some (v :: rest) =>
      (Some (key, v),
       {| strings := strings c;
          lists := match rest with
                   | [] => delete key (lists c)
                   | _ => <[key := rest]> (lists c)
                   end;
          hashes := hashes c |})
  | _ => (None, c)
  end.

(** [HIncrBy(key, field, incr)]; redis refuses an increment that leaves the
    signed 64 bit range, and the hash stays as it was. *)
Definition HIncrBy (key field : string) (incr : Z) (c : Cache) : Cache :=
  let h := default ∅ (hashes c !! key) in
  let n := default 0 (h !! field) + incr in
  if bool_decide (- 2 ^ 63 <= n < 2 ^ 63)
  then {| strings := strings c; lists := lists c;
          hashes := <[key := <[field := n]> h]> (hashes c) |}
  else c.

(** The value of a hash field, 0 when it was never incremented. *)
Definition HGet (key field : string) (c : Cache) : Z :=
  default 0 (default ∅ (hashes c !! key) !! field).

(** [Incr(key).Result()]: the counter is kept as its decimal numeral; a
    missing key counts from 0, and redis refuses a value that is no integer
    or an increment that leaves the signed 64 bit range. *)
Definition Incr (key : string) (c : Cache) : Go.result Z * Cache :=
  let stored :=
    match strings c !! key with
    | None => Some 0
    | Some val => Go.Atoi val
    end in
  match stored with
  | Some n =>
      if bool_decide (- 2 ^ 63 <= n < 2 ^ 63 - 1)
      then (Go.Ok (n + 1),
            {| strings := <[key := Go.Itoa (n + 1)]> (strings c);
               lists := lists c; hashes := hashes c |})
      else (Go.Err "ERR increment or decrement would overflow", c)
  | None => (Go.Err "ERR value is not an integer or out of range", c)
  end.

(** The integer a counter key stands at: 0 for a missing key, none for a
    value that is no integer. *)
Definition Counter (key : string) (c : Cache) : option Z :=
  match strings c !! key with
  | None => Some 0
  | Some val => Go.Atoi val
  end.

(** The list at a key, empty when the key is missing. *)
Definition LRange (key : string) (c : Cache) : list string := default [] (lists c !! key).

(** [BRPopLPush(source, destination, timeout)] read with [Scan]: the last
    element of the source leaves it and becomes the head of the
    destination; with nothing to pop the reply is [redis.Nil]. *)
Definition BRPopLPush (source destination : string) (c : Cache) : Go.result string * Cache :=
  match rev (LRange source c) with
  | [] => (Go.Err Nil, c)
  | v :: front =>
      let popped := match front with
                    | [] => delete source (lists c)
                    | _ => <[source := rev front]> (lists c)
                    end in
      (Go.Ok v,
       {| strings := strings c;
          lists := <[destination := v :: default [] (popped !! destination)]> popped;
          hashes := hashes c |})
  end.

End Redis.

(** ** Cache keys of package event_server/types *)
Module Types_.

(** Modelled from the spec: the key constants of package types are not
    under src; section 6 lists them by name, and only the names matter. *)
Definition EventCacheEventQueueKey : string := "cc:v3:event:inst_queue".
Definition EventCacheSubscriberEventQueueKeyPrefix : string := "cc:v3:event:subscriber_queue_".
Definition EventCacheDistCallBackCountPrefix : string := "cc:v3:event:dist_callback_".
Definition EventCacheSubscriberCursorPrefix : string := "cc:v3:event:subscriber_cursor:".
Definition NilStr : string := "nil".

Definition EventCacheEventQueueDuplicateKey : string := "cc:v3:event:inst_queue_duplicate".
Definition EventCacheDistIDPrefix : string := "cc:v3:event:dist_id_".

End Types_.

(** ** Package metadata and common: subscriptions and events *)
Module Metadata.

(** Modelled from the spec: the constants of packages metadata and common
    are not under src; section 3 and the table of section 4.F name them.
    The sources only compare them, so all that matters of the values is
    that they differ from one another. *)
Definition EventTypeInstData : string := "instdata".
Definition EventTypeRelation : string := "relation".
Definition EventActionCreate : string := "create".
Definition EventActionUpdate : string := "update".
Definition EventActionDelete : string := "delete".
Definition EventObjTypeModuleTransfer : string := "moduletransfer".
Definition BKInnerObjIDHost : string := "host".
Definition BKInnerObjIDApp : string := "biz".
Definition BKInnerObjIDSet : string := "set".
Definition BKInnerObjIDModule : string := "module".
Definition BKInnerObjIDObject : string := "object".
Definition BKObjIDField : string := "bk_obj_id".
Definition ConfirmModeHTTPStatus : string := "httpstatus".
Definition ConfirmModeRegular : string := "regular".

Record Subscription : Type := {
  SubscriptionID : Z;
  OwnerID : string;
  SubscriptionName : string;
  SubscriptionForm : string;
  CallbackURL : string;
  ConfirmMode : string;
  ConfirmPattern : string;
  TimeOutSeconds : Z
}.

Record EventData : Type := {
  CurData : Go.JSON;
  PreData : Go.JSON
}.

Record EventInst : Type := {
  ID : Z;
  Cursor : string;
  EventType : string;
  Action : string;
  ActionTime : Go.Time;
  ObjType : string;
  Data : list EventData
}.

(** [DistInst] embeds an [EventInst]. *)
Record DistInst : Type := {
  Inst : EventInst;
  DstbID : Z;
  SubscriptionID_ : Z
}.

(** The assignment [distInst.ObjType = t] through the embedded struct. *)
Definition setObjType (t : string) (d : DistInst) : DistInst :=
  {| Inst := {| ID := ID (Inst d); Cursor := Cursor (Inst d);
                EventType := EventType (Inst d); Action := Action (Inst d);
                ActionTime := ActionTime (Inst d); ObjType := t;
                Data := Data (Inst d) |};
     DstbID := DstbID d;
     SubscriptionID_ := SubscriptionID_ d |}.

End Metadata.

(** ** Package watch: cursors and watch events *)
Module Watch.

Definition CursorType : Type := string.

(** Modelled from the spec: the resource and event-type constants of
    package watch are not under src; the table of section 4.F names them,
    and all that matters of the values is that they differ. *)
Definition Host : CursorType := "host".
Definition ModuleHostRelation : CursorType := "host_relation".
Definition Biz : CursorType := "biz".
Definition Set_ : CursorType := "set".
Definition Module_ : CursorType := "module".
Definition ObjectBase : CursorType := "object_instance".
Definition Create : string := "create".
Definition Update : string := "update".
Definition Delete : string := "delete".

Record TimeStamp : Type := { Sec : Z; Nano : Z }.

(** A decoded cursor; the sources compare cursors by [ClusterTime.Sec]. *)
Record Cursor : Type := {
  Type_ : CursorType;
  ClusterTime : TimeStamp;
  Oid : string
}.

Record WatchEventDetail : Type := {
  Cursor_ : string;
  Resource : CursorType;
  EventType : string;
  Detail : Go.JSON
}.

Record WatchResp : Type := {
  Watched : bool;
  Events : list WatchEventDetail
}.

End Watch.

(** ** service/watch.go: the watch response *)
Module Service.
Import Watch.

Section GenerateResp.

(** [watch.NoEventCursor]: the sentinel, a constant that is not under src. *)
Variable NoEventCursor : string.

(** The [result] that [generateResp] builds; slices of [*WatchEventDetail]
    are lists of the details they point to. *)
Definition generateResult (startCursor : string) (rsc : CursorType)
    (events : list WatchEventDetail) : WatchResp :=
  let single (cursor : string) :=
    [{| Cursor_ := cursor; Resource := rsc; EventType := ""; Detail := Go.JNull |}] in
  match events with
  | [] =>
      if (String.length startCursor =? 0)%nat
      then {| Watched := false; Events := single NoEventCursor |}
      else {| Watched := false; Events := single startCursor |}
  | first :: _ =>
      if String.eqb (Cursor_ first) NoEventCursor
      then
        if (String.length startCursor =? 0)%nat
        then {| Watched := false; Events := single NoEventCursor |}
        else {| Watched := false; Events := single startCursor |}
      else {| Watched := true; Events := events |}
  end.

(** [metadata.Response]: the success envelope around the data. *)
Record Response : Type := {
  Result : bool;
  Code : Z;
  ErrMsg : string;
  Data : WatchResp
}.

(** Modelled from the spec: metadata.NewSuccessResp is not under src; the
    response of section 4.H is the [WatchResp], carried as the data of a
    success envelope. *)
Definition NewSuccessResp (data : WatchResp) : Response :=
  {| Result := true; Code := 0; ErrMsg := "success"; Data := data |}.

Definition generateResp (startCursor : string) (rsc : CursorType)
    (events : list WatchEventDetail) : Response :=
  NewSuccessResp (generateResult startCursor rsc events).

End GenerateResp.

(** The list has events to show: it is not empty and does not start with
    the sentinel. *)
Definition shows (noEvent : string) (events : list WatchEventDetail) : Prop :=
  exists first rest, events = first :: rest ∧ Cursor_ first ≠ noEvent.

End Service.

(** ** distribution/distributer.go: the subscription registry *)
Module Distribution.
Import Metadata.

(** The three shared maps of [Distributer]. *)
Record Distributer : Type := {
  subscriptions : gmap Z Subscription;
  subscribers : gmap string (list Z);
  resourceCursors : gmap Watch.CursorType Watch.Cursor
}.

(** [NewDistributer]: all maps are made empty. *)
Definition NewDistributer : Distributer :=
  {| subscriptions := ∅; subscribers := ∅; resourceCursors := ∅ |}.

Definition subscriberKey (ownerid eventType : string) : string :=
  ownerid +:+ ":" +:+ eventType.

(** [d.subscribers[subKey]]: a missing key reads as the nil slice. *)
Definition bucket (subKey : string) (subs : gmap string (list Z)) : list Z :=
  default [] (subs !! subKey).

(** The loop of [addSubscriber]: is [subid] among the subscribers? *)
Fixpoint alreadyExist (subid : Z) (ids : list Z) : bool :=
  match ids with
  | [] => false
  | id :: rest => if Z.eqb subid id then true else alreadyExist subid rest
  end.

Definition addSubscriber (ownerid eventType : string) (subid : Z)
    (subs : gmap string (list Z)) : gmap string (list Z) :=
  let subKey := subscriberKey ownerid eventType in
  if alreadyExist subid (bucket subKey subs) then subs
  else <[subKey := (bucket subKey subs ++ [subid])%list]> subs.

(** The loop of [remSubscriber]: the ids that differ from [subid], in order. *)
Fixpoint updated (subid : Z) (ids : list Z) : list Z :=
  match ids with
  | [] => []
  | id :: rest => if Z.eqb subid id then updated subid rest else id :: updated subid rest
  end.

Definition remSubscriber (ownerid eventType : string) (subid : Z)
    (subs : gmap string (list Z)) : gmap string (list Z) :=
  let subKey := subscriberKey ownerid eventType in
  <[subKey := updated subid (bucket subKey subs)]> subs.

Definition findSubscribers (ownerid eventType : string)
    (subs : gmap string (list Z)) : list Z :=
  bucket (ownerid +:+ ":" +:+ eventType) subs.

(** Modelled from the spec: Distributer.FindSubscription is not under src;
    section 4.D gives it as the lookup of the subscription by id. *)
Definition FindSubscription (subid : Z) (d : Distributer) : option Subscription :=
  subscriptions d !! subid.

(** Modelled from the spec: util.CalSliceDiff is not under src; section 4.D
    has the handler act "on the symmetric differences" of the old and the
    new event types: [subs] are the old ones that are not new, [plugs] the
    new ones that are not old. *)
Definition CalSliceDiff (oldslice newslice : list string) : list string * list string :=
  (filter (fun a => a ∉ newslice) oldslice, filter (fun b => b ∉ oldslice) newslice).

(** A call of the handlers on the subscribers index. *)
Inductive indexCall : Type :=
| CallAddSubscriber (ownerid eventType : string) (subid : Z)
| CallRemSubscriber (ownerid eventType : string) (subid : Z).

Definition invoke (subs : gmap string (list Z)) (c : indexCall) : gmap string (list Z) :=
  match c with
  | CallAddSubscriber o e i => addSubscriber o e i subs
  | CallRemSubscriber o e i => remSubscriber o e i subs
  end.

Section Registry.

(** [Subscription.GetCacheKey], the content hash; not under src. *)
Variable GetCacheKey : Subscription -> string.

(** [onUpsertSubscriptions] for the document of the event: the distributer
    afterwards, and the calls it made on the index, in order. *)
Definition onUpsertSubscriptions (subscription : Subscription) (d : Distributer)
    : Distributer * list indexCall :=
  match subscriptions d !! SubscriptionID subscription with
  | None =>
      let eventTypes := Go.Split "," (SubscriptionForm subscription) in
      let calls :=
        map (fun eventType =>
               CallAddSubscriber (OwnerID subscription) eventType (SubscriptionID subscription))
            eventTypes in
      ({| subscriptions := <[SubscriptionID subscription := subscription]> (subscriptions d);
          subscribers := foldl invoke (subscribers d) calls;
          resourceCursors := resourceCursors d |}, calls)
  | Some oldSubscription =>
      let subscriptions' :=
        if negb (String.eqb (GetCacheKey subscription) (GetCacheKey oldSubscription))
        then <[SubscriptionID subscription := subscription]> (subscriptions d)
        else subscriptions d in
      let oldEventTypes := Go.Split "," (SubscriptionForm oldSubscription) in
      let eventTypes := Go.Split "," (SubscriptionForm subscription) in
      let '(subs, plugs) := CalSliceDiff oldEventTypes eventTypes in
      let calls :=
        (map (fun eventType =>
                CallRemSubscriber (OwnerID subscription) eventType (SubscriptionID subscription))
             subs ++
         map (fun eventType =>
                CallAddSubscriber (OwnerID subscription) eventType (SubscriptionID subscription))
             plugs)%list in
      ({| subscriptions := subscriptions';
          subscribers := foldl invoke (subscribers d) calls;
          resourceCursors := resourceCursors d |}, calls)
  end.

End Registry.

(** [onDeleteSubscriptions] for the document of the event: the distributer
    afterwards, and the calls it made on the index, in order. *)
Definition onDeleteSubscriptions (subscription : Subscription) (d : Distributer)
    : Distributer * list indexCall :=
  let subscriptions' :=
    match subscriptions d !! SubscriptionID subscription with
    | Some _ => delete (SubscriptionID subscription) (subscriptions d)
    | None => subscriptions d
    end in
  let eventTypes := Go.Split "," (SubscriptionForm subscription) in
  let calls :=
    map (fun eventType =>
           CallRemSubscriber (OwnerID subscription) eventType (SubscriptionID subscription))
        eventTypes in
  ({| subscriptions := subscriptions';
      subscribers := foldl invoke (subscribers d) calls;
      resourceCursors := resourceCursors d |}, calls).


Section ResourceCursor.

(** [watch.ParseCursorTypeFromEventType] and [Cursor.Decode] of package watch are
    not under src; [Decode] answers [None] for a value it rejects. *)
Variable ParseCursorTypeFromEventType : string -> Watch.CursorType.
Variable Decode : string -> option Watch.Cursor.

(** The key the inner loop reads: the prefix, the subscribers key, and the
    subscription id as [Sprintf("%s:%s", ...)] prints an [int64]. *)
Definition subscriberCursorKey (k : string) (subid : Z) : string :=
  (Types_.EventCacheSubscriberCursorPrefix +:+ k) +:+ ":" +:+ Go.Sprintf_s_int64 subid.

(** "update local resource oldest cursors". *)
Definition updateOldest (cursorType : Watch.CursorType) (subCursor : Watch.Cursor)
    (rc : gmap Watch.CursorType Watch.Cursor) : gmap Watch.CursorType Watch.Cursor :=
  match rc !! cursorType with
  | None => <[cursorType := subCursor]> rc
  | Some oldestCursor =>
      if (Watch.Sec (Watch.ClusterTime subCursor) <? Watch.Sec (Watch.ClusterTime oldestCursor))%Z
      then <[cursorType := subCursor]> rc
      else rc
  end.

(** The inner loop, over the subscription ids [v] of the bucket [k]: the
    resource cursors as the loop leaves them, and the error it stopped at. *)
Fixpoint rangeSubscribers (cursorType : Watch.CursorType) (k : string)
    (cache : Redis.Cache) (v : list Z) (rc : gmap Watch.CursorType Watch.Cursor)
    : gmap Watch.CursorType Watch.Cursor * option Go.error :=
  match v with
  | [] => (rc, None)
  | subid :: rest =>
      let cursorKey := subscriberCursorKey k subid in
      match Redis.Get cursorKey cache with
      | (_, Some err) =>
          (rc, Some ("parse resource cursors failed, quert subscriber cursor[" +:+ cursorKey
                     +:+ "], " +:+ err))
      | (val, None) =>
          if negb (String.length val =? 0)%nat
          then match Decode val with
               | None =>
                   (rc, Some ("parse resource cursors failed, invalid cursor[" +:+ cursorKey +:+ "]"))
               | Some subCursor =>
                   rangeSubscribers cursorType k cache rest (updateOldest cursorType subCursor rc)
               end
          else rangeSubscribers cursorType k cache rest rc
      end
  end.

(** The outer loop, over the entries of [d.subscribers] in the order [kvs]
    in which the runtime ranges over the map.  The source writes
    [strings.Split(k)]; the separator of [subscriberKey] is meant. *)
Fixpoint rangeBuckets (cursorType : Watch.CursorType) (cache : Redis.Cache)
    (kvs : list (string * list Z)) (rc : gmap Watch.CursorType Watch.Cursor)
    : gmap Watch.CursorType Watch.Cursor * option Go.error :=
  match kvs with
  | [] => (rc, None)
  | (k, v) :: rest =>
      match Go.Split ":" k with
      | [_; eventType] =>
          if negb (String.eqb (ParseCursorTypeFromEventType eventType) cursorType)
          then rangeBuckets cursorType cache rest rc
          else match rangeSubscribers cursorType k cache v rc with
               | (rc', Some err) => (rc', Some err)
               | (rc', None) => rangeBuckets cursorType cache rest rc'
               end
      | _ =>
          (rc, Some ("parse resource cursors failed, the local subscribers key is invalid, " +:+ k))
      end
  end.

(** [getResourceCursor], ranging over the map in the order [kvs]: the
    distributer afterwards, the cursor (nil is [None]) and the error. *)
Definition getResourceCursor (cursorType : Watch.CursorType)
    (kvs : list (string * list Z)) (cache : Redis.Cache) (d : Distributer)
    : Distributer * (option Watch.Cursor * option Go.error) :=
  let '(rc, err) := rangeBuckets cursorType cache kvs (resourceCursors d) in
  let d' := {| subscriptions := subscriptions d; subscribers := subscribers d;
               resourceCursors := rc |} in
  match err with
  | Some e => (d', (None, Some e))
  | None => (d', (rc !! cursorType, None))
  end.

(** The orders in which the runtime may range over [d.subscribers]. *)
Definition rangeOrder (d : Distributer) (kvs : list (string * list Z)) : Prop :=
  kvs ≡ₚ map_to_list (subscribers d).

(** The bucket of the subscribers key [k] belongs to the cursor type: the
    key reads owner:eventType, and the event type maps to [cursorType]. *)
Definition bucketOf (cursorType : Watch.CursorType) (k : string) : bool :=
  match Go.Split ":" k with
  | [_; eventType] => String.eqb (ParseCursorTypeFromEventType eventType) cursorType
  | _ => false
  end.

(** [c] is the persisted cursor of a subscriber of the cursor type: a
    bucket of the cursor type lists [subid], and the cache holds, at the key
    the loop reads for it, a value that is not empty and decodes to [c]. *)
Definition persisted (cursorType : Watch.CursorType) (cache : Redis.Cache)
    (d : Distributer) (c : Watch.Cursor) : Prop :=
  ∃ k v subid val,
    subscribers d !! k = Some v ∧
    bucketOf cursorType k = true ∧
    subid ∈ v ∧
    Redis.strings cache !! subscriberCursorKey k subid = Some val ∧
    val ≠ "" ∧
    Decode val = Some c.

(** Every subscribers key reads owner:eventType. *)
Definition keysValid (kvs : list (string * list Z)) : bool :=
  forallb (fun kv => (length (Go.Split ":" (fst kv)) =? 2)%nat) kvs.

(** The cache holds a value for the subscriber, empty or decodable. *)
Definition readable (cache : Redis.Cache) (k : string) (subid : Z) : bool :=
  match Redis.strings cache !! subscriberCursorKey k subid with
  | Some val =>
      (String.length val =? 0)%nat || match Decode val with Some _ => true | None => false end
  | None => false
  end.

(** Every subscriber of every bucket of the cursor type is [readable]. *)
Definition allReadable (cursorType : Watch.CursorType) (cache : Redis.Cache)
    (kvs : list (string * list Z)) : bool :=
  forallb (fun kv => negb (bucketOf cursorType (fst kv)) || forallb (readable cache (fst kv)) (snd kv))
    kvs.

(** The cursors the loops fold into the oldest cursor, in order. *)
Fixpoint bucketCursors (k : string) (cache : Redis.Cache) (v : list Z) : list Watch.Cursor :=
  match v with
  | [] => []
  | subid :: rest =>
      match Redis.strings cache !! subscriberCursorKey k subid with
      | Some val =>
          if negb (String.length val =? 0)%nat
          then match Decode val with
               | Some c => c :: bucketCursors k cache rest
               | None => bucketCursors k cache rest
               end
          else bucketCursors k cache rest
      | None => bucketCursors k cache rest
      end
  end.

Fixpoint allCursors (cursorType : Watch.CursorType) (cache : Redis.Cache)
    (kvs : list (string * list Z)) : list Watch.Cursor :=
  match kvs with
  | [] => []
  | (k, v) :: rest =>
      if bucketOf cursorType k
      then bucketCursors k cache v ++ allCursors cursorType cache rest
      else allCursors cursorType cache rest
  end.

End ResourceCursor.

End Distribution.

(** ** distribution/event.go: the event sender *)
Module Sender.
Import Metadata Distribution.

Definition defaultSendTimeout : Z := 10.
Definition defaultFusingEventExpireSec : Z := 5 * 60.

(** [Hash], the hash ring; not under src.  [IsMatch] says whether this
    instance owns the key. *)
Record Hash : Type := { IsMatch : string -> bool }.

Record Request : Type := {
  Method : string;
  URL : string;
  Timeout : Z;
  Payload : string
}.

(** What the callback answered: the status code, and what reading the
    whole body gives. *)
Record HTTPResponse : Type := {
  StatusCode : Z;
  Body : Go.result string
}.

(** What the sender acts on: the cache, and the requests that went out to
    callback URLs, oldest first. *)
Record World : Type := {
  cache : Redis.Cache;
  posts : list Request
}.

Definition statIncrease (subid : Z) (key : string) (w : World) : World :=
  {| cache := Redis.HIncrBy (Types_.EventCacheDistCallBackCountPrefix +:+ Go.Itoa subid) key 1 (cache w);
     posts := posts w |}.

Definition increaseTotal (subid : Z) (w : World) : World := statIncrease subid "total" w.

Definition increaseFailure (subid : Z) (w : World) : World := statIncrease subid "failue" w.

(** The two counters of a subscription. *)
Definition total (subid : Z) (w : World) : Z :=
  Redis.HGet (Types_.EventCacheDistCallBackCountPrefix +:+ Go.Itoa subid) "total" (cache w).

Definition failue (subid : Z) (w : World) : Z :=
  Redis.HGet (Types_.EventCacheDistCallBackCountPrefix +:+ Go.Itoa subid) "failue" (cache w).

Section Send.

(** The libraries and the network, which are not the repository's code:
    [json.Marshal] and [json.Unmarshal] on a [DistInst], the URL check of
    [http.NewRequest] ([None]: the URL parses), the round trip of
    [httpCli.DoWithTimeout], and package regexp. *)
Variable json_Marshal : DistInst -> Go.result string.
Variable json_Unmarshal : string -> Go.result DistInst.
Variable url_Parse : string -> option Go.error.
Variable DoWithTimeout : Z -> Request -> Go.result HTTPResponse.
Variable Regexp : Type.
Variable regexp_Compile : string -> Go.result Regexp.
Variable regexp_Match : Regexp -> string -> bool.

(** [Subscription.GetTimeout]: the timeout in seconds. *)
Definition GetTimeout (s : Subscription) : Z := TimeOutSeconds s.

(** The POST request [send] builds for the callback, with the timeout it
    is sent under: the default when [TimeOutSeconds] is 0. *)
Definition callbackRequest (subscription : Subscription) (distData : string) : Request :=
  let duration :=
    if TimeOutSeconds subscription =? 0 then defaultSendTimeout else GetTimeout subscription in
  {| Method := "POST"; URL := CallbackURL subscription;
     Timeout := duration; Payload := distData |}.

(** The body of [send] below its [defer]: the world, the final value of
    [errFinal], and the returned error.  [err] is the variable of that name
    in the source; where the source assigns [errFinal = err], so does the
    model. *)
Definition sendBody (subscription : Subscription) (dist : DistInst) (w : World)
    : World * option Go.error * option Go.error :=
  match json_Marshal dist with
  | Go.Err err => (w, Some err, Some err)
  | Go.Ok distData =>
  match url_Parse (CallbackURL subscription) with
  | Some err => (w, Some err, Some err)
  | None =>
  let req := callbackRequest subscription distData in
  let w := {| cache := cache w; posts := posts w ++ [req] |} in
  match DoWithTimeout (Timeout req) req with
  | Go.Err err => (w, Some err, Some err)
  | Go.Ok resp =>
  match Body resp with
  | Go.Err err => (w, Some err, Some err)
  | Go.Ok respData =>
  let err : option Go.error := None in
  if String.eqb (ConfirmMode subscription) ConfirmModeHTTPStatus then
    if negb (String.eqb (Go.Itoa (StatusCode resp)) (ConfirmPattern subscription))
    then (w, err, Some ("not confirm http pattern, received " +:+ respData))
    else (w, None, None)
  else if String.eqb (ConfirmMode subscription) ConfirmModeRegular then
    match regexp_Compile (ConfirmPattern subscription) with
    | Go.Err err => (w, Some err, Some ("build regexp error, " +:+ err))
    | Go.Ok pattern =>
        let err : option Go.error := None in
        if negb (regexp_Match pattern respData)
        then (w, err, Some ("not confirm regular pattern, received " +:+ respData))
        else (w, None, None)
    end
  else (w, None, None)
  end end end end.

(** [send]: the world afterwards and the returned error. *)
Definition send (subid : Z) (d : Distributer) (dist : DistInst) (w : World)
    : World * option Go.error :=
  match FindSubscription subid d with
  | None => (w, Some ("subscription not found, " +:+ Go.Itoa subid))
  | Some subscription =>
      let w := increaseTotal (SubscriptionID subscription) w in
      let '(w, errFinal, ret) := sendBody subscription dist w in
      let w := match errFinal with
               | Some _ => increaseFailure (SubscriptionID subscription) w
               | None => w
               end in
      (w, ret)
  end.

(** The confirmation predicate of the subscription fails on a response:
    the status code in decimal differs from the pattern in http-status
    mode, the body does not match the compiled pattern in regular mode. *)
Definition confirmFails (subscription : Subscription) (resp : HTTPResponse)
    (respData : string) : Prop :=
  (ConfirmMode subscription = ConfirmModeHTTPStatus ∧
   Go.Itoa (StatusCode resp) ≠ ConfirmPattern subscription) ∨
  (ConfirmMode subscription = ConfirmModeRegular ∧
   ∃ pattern, regexp_Compile (ConfirmPattern subscription) = Go.Ok pattern ∧
              regexp_Match pattern respData = false).

(** Times whose Unix second is within 2^62 of the epoch; every time a JSON
    document can carry (years 0 to 9999) and every clock reading is.  The
    [int64] difference of two such seconds does not wrap. *)
Definition plausible (t : Go.Time) : Prop := - 2 ^ 62 <= Go.Unix t < 2 ^ 62.

(** One turn of the loop of [run], at the time [now]. *)
Definition runIteration (hash : Hash) (subid : Z) (d : Distributer) (now : Go.Time)
    (w : World) : World :=
  if negb (IsMatch hash (Go.Itoa subid)) then w
  else
    let '(distDatas, cache') :=
      Redis.BLPop (Types_.EventCacheSubscriberEventQueueKeyPrefix +:+ Go.Itoa subid) (cache w) in
    let w := {| cache := cache'; posts := posts w |} in
    match distDatas with
    | None => w
    | Some (_, distData) =>
        if String.eqb distData Types_.NilStr || (String.length distData =? 0)%nat then w
        else match json_Unmarshal distData with
             | Go.Err _ => w
             | Go.Ok dist =>
                 if (Go.wrap64 (Go.Unix now - Go.Unix (ActionTime (Inst dist)))
                     >? defaultFusingEventExpireSec)%Z
                 then w
                 else fst (send subid d dist w)
             end
    end.

(** The way to the callback's answer: the request that went out, the
    response and its body when the dist marshals, the URL parses, the round
    trip succeeds and the body can be read; [None] otherwise. *)
Definition answered (subscription : Subscription) (dist : DistInst)
    : option (Request * HTTPResponse * string) :=
  match json_Marshal dist with
  | Go.Err _ => None
  | Go.Ok distData =>
      match url_Parse (CallbackURL subscription) with
      | Some _ => None
      | None =>
          let req := callbackRequest subscription distData in
          match DoWithTimeout (Timeout req) req with
          | Go.Err _ => None
          | Go.Ok resp =>
              match Body resp with
              | Go.Err _ => None
              | Go.Ok respData => Some (req, resp, respData)
              end
          end
      end
  end.

(** The confirmation holds on a response: the status code in decimal is
    the pattern in http-status mode, the body matches the compiled pattern
    in regular mode, and there is nothing to confirm in any other mode. *)
Definition confirms (subscription : Subscription) (resp : HTTPResponse) (respData : string)
    : Prop :=
  (ConfirmMode subscription = ConfirmModeHTTPStatus ∧
   Go.Itoa (StatusCode resp) = ConfirmPattern subscription) ∨
  (ConfirmMode subscription = ConfirmModeRegular ∧
   ∃ pattern, regexp_Compile (ConfirmPattern subscription) = Go.Ok pattern ∧
              regexp_Match pattern respData = true) ∨
  (ConfirmMode subscription ≠ ConfirmModeHTTPStatus ∧
   ConfirmMode subscription ≠ ConfirmModeRegular).

(** [EventSender.Handle]: the dist goes to the queue of the subscription
    it names; [None] is the nil pointer. *)
Definition Handle (dist : option DistInst) (c : Redis.Cache) : Redis.Cache * option Go.error :=
  match dist with
  | None => (c, Some "invalid event dist metadata")
  | Some dist =>
      match json_Marshal dist with
      | Go.Err err => (c, Some err)
      | Go.Ok distData =>
          (Redis.LPush
             (Types_.EventCacheSubscriberEventQueueKeyPrefix +:+ Go.Itoa (SubscriptionID_ dist))
             distData c, None)
      end
  end.

End Send.

End Sender.

(** ** distribution/event.go: the event handler *)
Module Handler.
Import Metadata Distribution.

(** The inner [switch event.EventType] that every resource case repeats. *)
Definition actionOf (eventType : string) : option string :=
  if String.eqb eventType Watch.Create then Some EventActionCreate
  else if String.eqb eventType Watch.Update then Some EventActionUpdate
  else if String.eqb eventType Watch.Delete then Some EventActionDelete
  else None.

(** The [eventInst] that [Handle] fills in for an event, [None] where the
    loop goes on to the next event.  [now] is what [metadata.Now()] gives. *)
Definition eventInstOf (now : Go.Time) (event : Watch.WatchEventDetail) : option EventInst :=
  let eventInst (eventType objType : string) : option EventInst :=
    match actionOf (Watch.EventType event) with
    | Some action =>
        Some {| ID := 0; Cursor := Watch.Cursor_ event; EventType := eventType;
                Action := action; ActionTime := now; ObjType := objType;
                Data := [{| CurData := Watch.Detail event; PreData := Go.JNull |}] |}
    | None => None
    end in
  if String.eqb (Watch.Resource event) Watch.Host
  then eventInst EventTypeInstData BKInnerObjIDHost
  else if String.eqb (Watch.Resource event) Watch.ModuleHostRelation
  then eventInst EventTypeRelation EventObjTypeModuleTransfer
  else if String.eqb (Watch.Resource event) Watch.Biz
  then eventInst EventTypeInstData BKInnerObjIDApp
  else if String.eqb (Watch.Resource event) Watch.Set_
  then eventInst EventTypeInstData BKInnerObjIDSet
  else if String.eqb (Watch.Resource event) Watch.Module_
  then eventInst EventTypeInstData BKInnerObjIDModule
  else if String.eqb (Watch.Resource event) Watch.ObjectBase
  then eventInst EventTypeInstData BKInnerObjIDObject
  else None.

(** The closed table of section 4.F of the spec, in the spec's words:
    resource, event type, object type. *)
Definition resourceTable : list (Watch.CursorType * (string * string)) :=
  [ (Watch.Host, (EventTypeInstData, BKInnerObjIDHost));
    (Watch.ModuleHostRelation, (EventTypeRelation, EventObjTypeModuleTransfer));
    (Watch.Biz, (EventTypeInstData, BKInnerObjIDApp));
    (Watch.Set_, (EventTypeInstData, BKInnerObjIDSet));
    (Watch.Module_, (EventTypeInstData, BKInnerObjIDModule));
    (Watch.ObjectBase, (EventTypeInstData, BKInnerObjIDObject)) ].

Definition actionTable : list (string * string) :=
  [ (Watch.Create, EventActionCreate);
    (Watch.Update, EventActionUpdate);
    (Watch.Delete, EventActionDelete) ].

Fixpoint assoc {A : Type} (key : string) (table : list (string * A)) : option A :=
  match table with
  | [] => None
  | (k, a) :: rest => if String.eqb key k then Some a else assoc key rest
  end.

(** The event inst the spec's tables give for an event, [None] for an
    unknown resource or event type. *)
Definition tableEventInst (now : Go.Time) (event : Watch.WatchEventDetail) : option EventInst :=
  match assoc (Watch.Resource event) resourceTable, assoc (Watch.EventType event) actionTable with
  | Some (eventType, objType), Some action =>
      Some {| ID := 0; Cursor := Watch.Cursor_ event; EventType := eventType;
              Action := action; ActionTime := now; ObjType := objType;
              Data := [{| CurData := Watch.Detail event; PreData := Go.JNull |}] |}
  | _, _ => None
  end.

(** The values [Handle] could hand to [json.Marshal]. *)
Inductive marshalable : Type :=
| OfWatchEventDetail (event : Watch.WatchEventDetail)
| OfEventInst (eventInst : EventInst).

Section Handle.

Variable json_Marshal : marshalable -> Go.result string.

(** One turn of the loop of [Handle].  The source marshals [event]. *)
Definition handleOne (now : Go.Time) (c : Redis.Cache) (event : Watch.WatchEventDetail)
    : Redis.Cache :=
  match eventInstOf now event with
  | None => c
  | Some eventInst =>
      match json_Marshal (OfWatchEventDetail event) with
      | Go.Err _ => c
      | Go.Ok eventData => Redis.LPush Types_.EventCacheEventQueueKey eventData c
      end
  end.

Definition Handle (now : Go.Time) (events : list Watch.WatchEventDetail) (c : Redis.Cache)
    : Redis.Cache * option Go.error :=
  (foldl (handleOne now) c events, None).

End Handle.

(** [getDistInst]: the slice and the error it returns, or the panic. *)
Definition getDistInst (event : EventInst) : Go.outcome (list DistInst * option Go.error) :=
  let distInst := {| Inst := event; DstbID := 0; SubscriptionID_ := 0 |} in
  if String.eqb (EventType event) EventTypeInstData
     && String.eqb (ObjType event) BKInnerObjIDObject
  then
    match Data event with
    | [] => Go.Returns ([], None)
    | data0 :: _ =>
        let payload :=
          if String.eqb (Action event) EventActionDelete then PreData data0 else CurData data0 in
        match payload with
        | Go.JObject m =>
            match Go.index BKObjIDField m with
            | Go.JNull => Go.Returns ([distInst], None)
            | Go.JString objType => Go.Returns ([setObjType objType distInst], None)
            | _ => Go.Panics "interface conversion: interface {} is not string"
            end
        | _ =>
            Go.Returns ([], Some "can't parse event dist inst from event data")
        end
    end
  else Go.Returns ([distInst], None).

(** The payload that decides the object type: [PreData] of the first item
    for a delete, [CurData] of the first item otherwise. *)
Definition decisive (event : EventInst) (data0 : EventData) : Go.JSON :=
  if String.eqb (Action event) EventActionDelete then PreData data0 else CurData data0.

Definition isObject (v : Go.JSON) : bool :=
  match v with Go.JObject _ => true | _ => false end.

(** An object event whose [bk_obj_id] is the number 5. *)
Definition numberedObjectEvent : EventInst :=
  {| ID := 1; Cursor := "c1"; EventType := EventTypeInstData;
     Action := EventActionCreate; ActionTime := {| Go.Unix := 0 |};
     ObjType := BKInnerObjIDObject;
     Data := [{| CurData := Go.JObject [(BKObjIDField, Go.JNumber 5)];
                 PreData := Go.JNull |}] |}.

(** What the handler acts on: the ids that have a sender in [h.senders]
    (a sender is created running, and stays), and the cache. *)
Record State : Type := {
  senders : gset Z;
  redis : Redis.Cache
}.

(** The assignments [dist.DstbID = dstbID] and [dist.SubscriptionID = subid]. *)
Definition stamp (dstbID subid : Z) (dist : DistInst) : DistInst :=
  {| Inst := Inst dist; DstbID := dstbID; SubscriptionID_ := subid |}.

Section Distribute.

(** [json.Marshal] on a dist and [json.Unmarshal] into an event inst; the
    hash ring; and [Distributer.FindSubscribers] and [DistInst.GetType],
    which are not under src. *)
Variable json_Marshal : DistInst -> Go.result string.
Variable json_Unmarshal : string -> Go.result EventInst.
Variable ring : Sender.Hash.
Variable FindSubscribers : string -> list Z.
Variable GetType : DistInst -> string.

Definition nextDistID (subid : Z) (c : Redis.Cache) : Go.result Z * Redis.Cache :=
  Redis.Incr (Types_.EventCacheDistIDPrefix +:+ Go.Itoa subid) c.

(** [pushToSender]: the state afterwards and the returned error. *)
Definition pushToSender (subid : Z) (dist : DistInst) (st : State) : State * option Go.error :=
  let senders' := if decide (subid ∈ senders st) then senders st else {[subid]} ∪ senders st in
  match nextDistID subid (redis st) with
  | (Go.Err err, c) => ({| senders := senders'; redis := c |}, Some err)
  | (Go.Ok dstbID, c) =>
      let '(c', err) := Sender.Handle json_Marshal (Some (stamp dstbID subid dist)) c in
      ({| senders := senders'; redis := c' |}, err)
  end.

(** The inner loop of [handleEvent], over the subscribers of one dist. *)
Fixpoint distribute (dist : DistInst) (subscribers : list Z) (st : State)
    : State * option Go.error :=
  match subscribers with
  | [] => (st, None)
  | subscriber :: rest =>
      if negb (Sender.IsMatch ring (Go.Itoa subscriber)) then distribute dist rest st
      else match pushToSender subscriber dist st with
           | (st', Some err) => (st', Some err)
           | (st', None) => distribute dist rest st'
           end
  end.

(** The outer loop of [handleEvent], over the dists. *)
Fixpoint distributeAll (dists : list DistInst) (st : State) : State * option Go.error :=
  match dists with
  | [] => (st, None)
  | dist :: rest =>
      match distribute dist (FindSubscribers (GetType dist)) st with
      | (st', Some err) => (st', Some err)
      | (st', None) => distributeAll rest st'
      end
  end.

(** [handleEvent]: the state afterwards and the returned error, or the
    panic of [getDistInst]. *)
Definition handleEvent (event : EventInst) (st : State) : Go.outcome (State * option Go.error) :=
  match getDistInst event with
  | Go.Panics msg => Go.Panics msg
  | Go.Returns (_, Some err) =>
      Go.Returns (st, Some ("trans event inst to dist inst failed, " +:+ err))
  | Go.Returns (dists, None) => Go.Returns (distributeAll dists st)
  end.

(** What [popEvent] makes of a popped document. *)
Definition decoded (eventStr : string) : option EventInst * option Go.error :=
  if String.eqb eventStr "" || String.eqb eventStr Types_.NilStr then (None, None)
  else match json_Unmarshal eventStr with
       | Go.Err err => (None, Some err)
       | Go.Ok event => (Some event, None)
       end.

(** [popEvent]: the cache afterwards, the event (nil is [None]) and the
    error. *)
Definition popEvent (c : Redis.Cache) : Redis.Cache * (option EventInst * option Go.error) :=
  match Redis.BRPopLPush Types_.EventCacheEventQueueKey
          Types_.EventCacheEventQueueDuplicateKey c with
  | (Go.Err err, c') => (c', (None, Some err))
  | (Go.Ok eventStr, c') =>
      if String.eqb eventStr "" || String.eqb eventStr Types_.NilStr then (c', (None, None))
      else match json_Unmarshal eventStr with
           | Go.Err err => (c', (None, Some err))
           | Go.Ok event => (c', (Some event, None))
           end
  end.

End Distribute.

(** The documents one call of [Handle] pushes, first event first: those of
    the events of a known resource and event type that marshal. *)
Definition pushedDocuments (json_Marshal : marshalable -> Go.result string) (now : Go.Time)
    (events : list Watch.WatchEventDetail) : list string :=
  omap (fun event =>
          match eventInstOf now event, json_Marshal (OfWatchEventDetail event) with
          | Some _, Go.Ok eventData => Some eventData
          | _, _ => None
          end) events.

(** The handler's three dependencies are pointers: [None] is nil. *)
Record EventHandler : Type := {
  cache : option Redis.Cache;
  distributer : option Distributer;
  hash : option Sender.Hash
}.

(** The goroutine [Start] launches: the loop that pops and handles events. *)
Inductive goroutine : Type := PopAndHandleLoop.

(** [Start]: the returned error and the goroutines launched. *)
Definition Start (h : EventHandler) : option Go.error * list goroutine :=
  match cache h with
  | None => (Some "redis cache not inited", [])
  | Some _ =>
  match distributer h with
  | None => (Some "distributer not inited", [])
  | Some _ =>
  match hash h with
  | None => (Some "hash not inited", [])
  | Some _ => (None, [PopAndHandleLoop])
  end end end.

End Handler.

(** ** service/watch.go: the watch request handler *)
Module WatchAPI.

(** [watch.WatchEventOptions], the decoded request body. *)
Record WatchEventOptions : Type := {
  Resource : Watch.CursorType;
  Cursor : string;
  StartFrom : Z;
  EventTypes : list string
}.

(** The assignment [options.Resource = watch.CursorType(resource)]. *)
Definition withResource (resource : string) (o : WatchEventOptions) : WatchEventOptions :=
  {| Resource := resource; Cursor := Cursor o; StartFrom := StartFrom o;
     EventTypes := EventTypes o |}.

(** The message of an error reply. *)
Inductive respError : Type :=
| CCErrCommJSONUnmarshalFailed
| CCErrCommHTTPInputInvalid
| WatchError (err : Go.error).

(** What the handler writes to the response. *)
Inductive written : Type :=
| WriteError (httpStatus : Z) (msg : respError)
| WriteEntity (value : Service.Response).

Definition StatusOK : Z := 200.

Section WatchEvent.

(** The sentinel, the validation of the options, the resource keys and the
    watcher are not under src. *)
Variable NoEventCursor : string.
Variable Key : Type.
Variable Validate : WatchEventOptions -> option Go.error.
Variable GetResourceKeyWithCursorType : Watch.CursorType -> Go.result Key.
Variable WatchWithCursor :
  Key -> WatchEventOptions -> string -> Go.result (list Watch.WatchEventDetail).
Variable WatchWithStartFrom :
  Key -> WatchEventOptions -> string -> Go.result (list Watch.WatchEventDetail).
Variable WatchFromNow : Key -> WatchEventOptions -> string -> Go.result Watch.WatchEventDetail.

(** [WatchEvent] for the path parameter [resource], the outcome [body] of
    decoding the request body, and the request id. *)
Definition WatchEvent (resource : string) (body : Go.result WatchEventOptions) (rid : string)
    : written :=
  match body with
  | Go.Err _ => WriteError StatusOK CCErrCommJSONUnmarshalFailed
  | Go.Ok decoded =>
  let options := withResource resource decoded in
  match Validate options with
  | Some _ => WriteError StatusOK CCErrCommHTTPInputInvalid
  | None =>
  match GetResourceKeyWithCursorType (Resource options) with
  | Go.Err _ => WriteError StatusOK CCErrCommHTTPInputInvalid
  | Go.Ok key =>
  if negb (String.length (Cursor options) =? 0)%nat then
    match WatchWithCursor key options rid with
    | Go.Err err => WriteError StatusOK (WatchError err)
    | Go.Ok events =>
        WriteEntity (Service.generateResp NoEventCursor (Cursor options) (Resource options) events)
    end
  else if negb (StartFrom options =? 0) then
    match WatchWithStartFrom key options rid with
    | Go.Err _ => WriteError StatusOK CCErrCommHTTPInputInvalid
    | Go.Ok events =>
        WriteEntity (Service.generateResp NoEventCursor "" (Resource options) events)
    end
  else
    match WatchFromNow key options rid with
    | Go.Err _ => WriteError StatusOK CCErrCommHTTPInputInvalid
    | Go.Ok events =>
        WriteEntity (Service.generateResp NoEventCursor "" (Resource options) [events])
    end
  end end end.

End WatchEvent.

End WatchAPI.

(** ** Sample inputs and sample libraries, for the examples of Part II *)
Module Sample.
Import Metadata Distribution.

(** The stored subscription 7 of owner "0", and its update that trades
    host creations for host deletions and moves the callback. *)
Definition storedSubscription : Subscription :=
  {| SubscriptionID := 7; OwnerID := "0"; SubscriptionName := "audit";
     SubscriptionForm := "hostcreate,hostupdate"; CallbackURL := "http://x/";
     ConfirmMode := ConfirmModeHTTPStatus; ConfirmPattern := "200";
     TimeOutSeconds := 0 |}.

Definition updatedSubscription : Subscription :=
  {| SubscriptionID := 7; OwnerID := "0"; SubscriptionName := "audit";
     SubscriptionForm := "hostupdate,hostdelete"; CallbackURL := "http://y/";
     ConfirmMode := ConfirmModeHTTPStatus; ConfirmPattern := "200";
     TimeOutSeconds := 0 |}.

Definition registered : Distributer :=
  {| subscriptions := {[ 7 := storedSubscription ]};
     subscribers := {[ "0:hostcreate" := [7]; "0:hostupdate" := [7] ]};
     resourceCursors := ∅ |}.

(** A sample of the libraries and of the network around [send]: every
    dist marshals, every URL parses, and the callback answers every request
    with the status 500 and the body "FAIL". *)
Definition marshal (dist : DistInst) : Go.result string :=
  Go.Ok ("dist-" +:+ Go.Itoa (DstbID dist)).

Definition staleDist : DistInst :=
  {| Inst := {| ID := 1; Cursor := "c1"; EventType := EventTypeInstData;
                Action := EventActionCreate; ActionTime := {| Go.Unix := 1000 |};
                ObjType := BKInnerObjIDHost; Data := [] |};
     DstbID := 1; SubscriptionID_ := 7 |}.

Definition unmarshal (data : string) : Go.result DistInst :=
  if String.eqb data "dist-1" then Go.Ok staleDist else Go.Err "invalid character".

Definition urlParse (url : string) : option Go.error := None.

Definition answer500 (timeout : Z) (req : Sender.Request) : Go.result Sender.HTTPResponse :=
  Go.Ok {| Sender.StatusCode := 500; Sender.Body := Go.Ok "FAIL" |}.

(** A callback that answers 200 and "OK", and one that cannot be reached. *)
Definition answer200 (timeout : Z) (req : Sender.Request) : Go.result Sender.HTTPResponse :=
  Go.Ok {| Sender.StatusCode := 200; Sender.Body := Go.Ok "OK" |}.

Definition refused (timeout : Z) (req : Sender.Request) : Go.result Sender.HTTPResponse :=
  Go.Err "connection refused".

(** A second dist for subscription 7, and a ring that owns nothing. *)
Definition secondDist : DistInst :=
  {| Inst := Inst staleDist; DstbID := 2; SubscriptionID_ := 7 |}.

Definition otherRing : Sender.Hash := {| Sender.IsMatch := fun _ => false |}.

(** A sample of the handler's surroundings: every document decodes to the
    event of [staleDist], subscriptions 7 and 8 subscribe to every type,
    and the ring matches subscription 7 only. *)
Definition unmarshalEvent (data : string) : Go.result EventInst := Go.Ok (Inst staleDist).

Definition everyone (type : string) : list Z := [7; 8].

Definition typeOf (dist : DistInst) : string := ObjType (Inst dist) +:+ Action (Inst dist).

Definition ringOf7 : Sender.Hash := {| Sender.IsMatch := fun key => String.eqb key "7" |}.

Definition fresh : Handler.State := {| Handler.senders := ∅; Handler.redis := Redis.empty |}.

(** A sample of package regexp: a pattern is a literal prefix. *)
Definition compile (pattern : string) : Go.result string := Go.Ok pattern.

Definition prefixMatch (pattern data : string) : bool := String.prefix pattern data.

(** A sample of package watch: every event type whose name starts with
    "host" belongs to the host cursor, and a cursor value decodes to the
    cursor whose second is the length of the value. *)
Definition parseCursorType (eventType : string) : Watch.CursorType :=
  if String.prefix "host" eventType then Watch.Host else Watch.ObjectBase.

Definition decode (val : string) : option Watch.Cursor :=
  Some {| Watch.Type_ := Watch.Host;
          Watch.ClusterTime := {| Watch.Sec := Z.of_nat (String.length val); Watch.Nano := 0 |};
          Watch.Oid := val |}.

(** Subscriptions 7 and 8 of owner "0" both subscribe to host creations. *)
Definition twoSubscribers : Distributer :=
  {| subscriptions := ∅;
     subscribers := {[ "0:hostcreate" := [7; 8] ]};
     resourceCursors := ∅ |}.

(** Both have a cursor in the cache, of the seconds 5 and 3. *)
Definition bothPersisted : Redis.Cache :=
  {| Redis.strings := {[ subscriberCursorKey "0:hostcreate" 7 := "abcde";
                         subscriberCursorKey "0:hostcreate" 8 := "abc" ]};
     Redis.lists := ∅; Redis.hashes := ∅ |}.

(** Only subscription 8 has one. *)
Definition onePersisted : Redis.Cache :=
  {| Redis.strings := {[ subscriberCursorKey "0:hostcreate" 8 := "abc" ]};
     Redis.lists := ∅; Redis.hashes := ∅ |}.

(** Both cursors at the keys that end in the id in decimal. *)
Definition decimalKeyed : Redis.Cache :=
  {| Redis.strings :=
       {[ Types_.EventCacheSubscriberCursorPrefix +:+ "0:hostcreate:7" := "abcde";
          Types_.EventCacheSubscriberCursorPrefix +:+ "0:hostcreate:8" := "abc" ]};
     Redis.lists := ∅; Redis.hashes := ∅ |}.

(** The same two subscribers when the distributer already stores the
    cursor of the second 3 as the oldest of the host cursors. *)
Definition alreadyTracked : Distributer :=
  {| subscriptions := ∅;
     subscribers := {[ "0:hostcreate" := [7; 8] ]};
     resourceCursors :=
       {[ Watch.Host := {| Watch.Type_ := Watch.Host;
                           Watch.ClusterTime := {| Watch.Sec := 3; Watch.Nano := 0 |};
                           Watch.Oid := "abc" |} ]} |}.

(** Subscription 7 of the owner "a:b" subscribes to host creations. *)
Definition colonOwner : Distributer :=
  {| subscriptions := ∅;
     subscribers := addSubscriber "a:b" "hostcreate" 7 ∅;
     resourceCursors := ∅ |}.

(** A sample of [json.Marshal] for the handler. *)
Definition marshalEvent (v : Handler.marshalable) : Go.result string :=
  match v with
  | Handler.OfWatchEventDetail e =>
      Go.Ok ("watch-event-detail " +:+ Watch.Cursor_ e +:+ " " +:+ Watch.Resource e
             +:+ " " +:+ Watch.EventType e)
  | Handler.OfEventInst i =>
      Go.Ok ("event-inst " +:+ Cursor i +:+ " " +:+ EventType i +:+ " " +:+ ObjType i
             +:+ " " +:+ Action i)
  end.

Definition hostCreated : Watch.WatchEventDetail :=
  {| Watch.Cursor_ := "c1"; Watch.Resource := Watch.Host; Watch.EventType := Watch.Create;
     Watch.Detail := Go.JObject [("bk_host_id", Go.JNumber 1)] |}.

(** The events that follow it: the same host is updated, then deleted. *)
Definition hostUpdated : Watch.WatchEventDetail :=
  {| Watch.Cursor_ := "c2"; Watch.Resource := Watch.Host; Watch.EventType := Watch.Update;
     Watch.Detail := Go.JObject [("bk_host_id", Go.JNumber 1)] |}.

Definition hostDeleted : Watch.WatchEventDetail :=
  {| Watch.Cursor_ := "c3"; Watch.Resource := Watch.Host; Watch.EventType := Watch.Delete;
     Watch.Detail := Go.JObject [("bk_host_id", Go.JNumber 1)] |}.

(** A sample of what is around [WatchEvent]: every option is valid, the
    resource is its own key, no event follows a cursor, a start time finds
    one event, and nothing has happened now. *)
Definition validate (o : WatchAPI.WatchEventOptions) : option Go.error := None.

Definition resourceKey (resource : Watch.CursorType) : Go.result string := Go.Ok resource.

Definition nothingNew (key : string) (o : WatchAPI.WatchEventOptions) (rid : string)
    : Go.result (list Watch.WatchEventDetail) := Go.Ok [].

Definition oneSince (key : string) (o : WatchAPI.WatchEventOptions) (rid : string)
    : Go.result (list Watch.WatchEventDetail) := Go.Ok [hostCreated].

Definition nothingYet (key : string) (o : WatchAPI.WatchEventOptions) (rid : string)
    : Go.result Watch.WatchEventDetail :=
  Go.Ok {| Watch.Cursor_ := "no-event"; Watch.Resource := WatchAPI.Resource o;
           Watch.EventType := ""; Watch.Detail := Go.JNull |}.

Definition resumeFrom (cursor : string) : WatchAPI.WatchEventOptions :=
  {| WatchAPI.Resource := ""; WatchAPI.Cursor := cursor; WatchAPI.StartFrom := 0;
     WatchAPI.EventTypes := [] |}.

Definition ring : Sender.Hash := {| Sender.IsMatch := fun _ => true |}.

(** The world in which subscription 7 has one dist queued. *)
Definition queued : Sender.World :=
  {| Sender.cache :=
       Redis.LPush (Types_.EventCacheSubscriberEventQueueKeyPrefix +:+ Go.Itoa 7) "dist-1"
         Redis.empty;
     Sender.posts := [] |}.

Definition idle : Sender.World := {| Sender.cache := Redis.empty; Sender.posts := [] |}.

End Sample.

(** * Part II: theorems *)

(** ** The refresh lock table *)
Module LockSpec.
Import Lock.

Lemma run_cons (c : call) (cs : list call) (r : gmap string bool) :
  run (c :: cs) r = run cs (exec c r).
Proof. reflexivity. Qed.

Lemma canRefresh_table (k k' : string) (r : gmap string bool) :
  k ≠ k' -> snd (canRefresh k' r) !! k = r !! k.
Proof.
  intros Hne. unfold canRefresh.
  destruct (r !! k') as [b|] eqn:E; simpl; [reflexivity|].
  by rewrite lookup_insert_ne.
Qed.

(** A call other than [setUnRefreshing(k)] leaves [k] in progress. *)
Lemma exec_keeps_inProgress (k : string) (c : call) (r : gmap string bool) :
  inProgress k r -> c ≠ SetUnRefreshing k -> inProgress k (exec c r).
Proof.
  unfold inProgress. intros Hk Hc.
  destruct c as [k'|k'|k']; simpl.
  - destruct (decide (k = k')) as [<-|Hne].
    + unfold canRefresh. by rewrite Hk.
    + by rewrite canRefresh_table.
  - unfold setRefreshing. destruct (decide (k' = k)) as [->|Hne].
    + by rewrite lookup_insert_eq.
    + by rewrite lookup_insert_ne.
  - unfold setUnRefreshing. rewrite lookup_insert_ne; [done|].
    intros ->. by apply Hc.
Qed.

Lemma run_keeps_inProgress (k : string) (cs : list call) (r : gmap string bool) :
  inProgress k r -> Forall (fun c => c ≠ SetUnRefreshing k) cs -> inProgress k (run cs r).
Proof.
  revert r. induction cs as [|c cs IH]; intros r Hk Hcs; [exact Hk|].
  rewrite run_cons. inversion Hcs as [|? ? Hc Hcs']; subst.
  apply IH; [|exact Hcs']. by apply exec_keeps_inProgress.
Qed.

(** A call other than [setRefreshing(k)] leaves [k] out of progress. *)
Lemma exec_keeps_idle (k : string) (c : call) (r : gmap string bool) :
  ¬ inProgress k r -> c ≠ SetRefreshing k -> ¬ inProgress k (exec c r).
Proof.
  unfold inProgress. intros Hk Hc.
  destruct c as [k'|k'|k']; simpl.
  - destruct (decide (k = k')) as [<-|Hne].
    + unfold canRefresh. destruct (r !! k) as [b|] eqn:E; simpl.
      * by rewrite E.
      * by rewrite lookup_insert_eq.
    + by rewrite canRefresh_table.
  - unfold setRefreshing. rewrite lookup_insert_ne; [done|].
    intros ->. by apply Hc.
  - unfold setUnRefreshing. destruct (decide (k' = k)) as [->|Hne].
    + by rewrite lookup_insert_eq.
    + by rewrite lookup_insert_ne.
Qed.

Lemma run_keeps_idle (k : string) (cs : list call) (r : gmap string bool) :
  ¬ inProgress k r -> Forall (fun c => c ≠ SetRefreshing k) cs -> ¬ inProgress k (run cs r).
Proof.
  revert r. induction cs as [|c cs IH]; intros r Hk Hcs; [exact Hk|].
  rewrite run_cons. inversion Hcs as [|? ? Hc Hcs']; subst.
  apply IH; [|exact Hcs']. by apply exec_keeps_idle.
Qed.

Lemma canRefresh_true_iff (k : string) (r : gmap string bool) :
  fst (canRefresh k r) = true <-> ¬ inProgress k r.
Proof.
  unfold canRefresh, inProgress.
  destruct (r !! k) as [[|]|]; simpl; split; congruence.
Qed.

(** The contract of the table for calls that take effect one after the
    other, none of them inside another.  [canRefresh(k)] answers true
    exactly when [k] is not marked in
    progress; a key that is not in the table counts as not in progress and
    is then recorded as [false], and a key that is in the table leaves the
    table as it was.  After [setRefreshing(k)], whatever calls follow on
    the table, as long as none of them is [setUnRefreshing(k)],
    [canRefresh(k)] answers false; once [setUnRefreshing(k)] has been
    called, and as long as no [setRefreshing(k)] follows, it answers true
    again. *)
Theorem canRefresh_single_flight (k : string) (r : gmap string bool) :
  (fst (canRefresh k r) = true <-> ¬ inProgress k r) ∧
  (r !! k = None -> canRefresh k r = (true, <[k := false]> r)) ∧
  (is_Some (r !! k) -> snd (canRefresh k r) = r) ∧
  (forall cs : list call,
      Forall (fun c => c ≠ SetUnRefreshing k) cs ->
      fst (canRefresh k (run cs (setRefreshing k r))) = false) ∧
  (forall cs cs' : list call,
      Forall (fun c => c ≠ SetRefreshing k) cs' ->
      fst (canRefresh k (run cs' (setUnRefreshing k (run cs (setRefreshing k r))))) = true).
Proof.
  split; [apply canRefresh_true_iff|].
  split; [intros E; unfold canRefresh; by rewrite E|].
  split; [intros [b E]; unfold canRefresh; by rewrite E|].
  split.
  - intros cs Hcs.
    assert (H : inProgress k (run cs (setRefreshing k r))).
    { apply run_keeps_inProgress; [|exact Hcs].
      unfold inProgress, setRefreshing. by rewrite lookup_insert_eq. }
    destruct (fst (canRefresh k (run cs (setRefreshing k r)))) eqn:E; [|reflexivity].
    apply canRefresh_true_iff in E. contradiction.
  - intros cs cs' Hcs'. apply canRefresh_true_iff.
    apply run_keeps_idle; [|exact Hcs'].
    unfold inProgress, setUnRefreshing. by rewrite lookup_insert_eq.
Qed.

(** The theorem at work: "biz" is set refreshing, another caller asks and
    "set" is released in between, and [canRefresh("biz")] still says no. *)
Lemma canRefresh_single_flight_witness :
  fst (canRefresh "biz"
         (run [CanRefresh "biz"; SetUnRefreshing "set"] (setRefreshing "biz" ∅))) = false.
Proof.
  apply (proj1 (proj2 (proj2 (proj2 (canRefresh_single_flight "biz" ∅))))).
  repeat constructor; discriminate.
Defined.

(** Run without another caller in between, the two steps are [canRefresh]. *)
Lemma canRefresh_steps (k : string) (r : gmap string bool) :
  canRefreshFinish k (canRefreshRead k r) r = canRefresh k r.
Proof. reflexivity. Qed.

(** C7, for concurrent callers: the code does not keep it.  The write of
    [canRefresh] (lock.go, line 29) comes after [r.lock.Unlock()] (line 27).
    Caller A asks [canRefresh("biz")] on the empty table, reads that "biz"
    is missing and releases the lock; caller B runs [setRefreshing("biz")],
    so "biz" is marked in progress; A then finishes: it writes [false] for
    "biz" and is told true.  No [setUnRefreshing("biz")] has been called,
    and the next [canRefresh("biz")] says true. *)
Example canRefresh_late_write_unmarks :
  let seen := canRefreshRead "biz" ∅ in
  let marked := setRefreshing "biz" ∅ in
  let finished := canRefreshFinish "biz" seen marked in
  inProgress "biz" marked ∧ fst finished = true ∧ fst (canRefresh "biz" (snd finished)) = true.
Proof. repeat split. Qed.

End LockSpec.

(** ** The watch response *)
Module ServiceSpec.
Import Watch Service.

Lemma length_zero_iff (s : string) : (String.length s =? 0)%nat = true <-> s = "".
Proof. destruct s; simpl; split; congruence. Qed.

Lemma generateResult_no_events (noEvent startCursor : string) (rsc : CursorType) :
  generateResult noEvent startCursor rsc [] =
  {| Watched := false;
     Events := [{| Cursor_ := if decide (startCursor = "") then noEvent else startCursor;
                   Resource := rsc; EventType := ""; Detail := Go.JNull |}] |}.
Proof.
  unfold generateResult.
  destruct (String.length startCursor =? 0)%nat eqn:E.
  - apply length_zero_iff in E. by rewrite decide_True.
  - rewrite decide_False; [done|]. intros ->. discriminate.
Qed.

(** C3. The response of [generateResp] is a success envelope whose data
    follow four rules.  With no events and an empty start cursor:
    [Watched] is false and the only event carries [NoEventCursor] and the
    resource.  With no events and a start cursor: [Watched] is false and
    the only event carries the start cursor and the resource.  When the
    first event's cursor is [NoEventCursor]: the same response as for no
    events.  Otherwise: [Watched] is true and the events are the ones that
    were passed in. *)
Theorem generateResp_rules (NoEventCursor startCursor : string) (rsc : CursorType)
    (events : list WatchEventDetail) :
  let resp := generateResp NoEventCursor startCursor rsc events in
  let single (cursor : string) :=
    [{| Cursor_ := cursor; Resource := rsc; EventType := ""; Detail := Go.JNull |}] in
  Result resp = true ∧
  (events = [] -> startCursor = "" ->
   Data resp = {| Watched := false; Events := single NoEventCursor |}) ∧
  (events = [] -> startCursor ≠ "" ->
   Data resp = {| Watched := false; Events := single startCursor |}) ∧
  (forall first rest, events = first :: rest -> Cursor_ first = NoEventCursor ->
   resp = generateResp NoEventCursor startCursor rsc []) ∧
  (forall first rest, events = first :: rest -> Cursor_ first ≠ NoEventCursor ->
   Data resp = {| Watched := true; Events := events |}).
Proof.
  simpl. split; [reflexivity|]. repeat split.
  - intros -> ->. reflexivity.
  - intros -> Hne. rewrite generateResult_no_events. by rewrite decide_False.
  - intros first rest -> Hfirst. unfold generateResp. f_equal.
    unfold generateResult at 1. apply String.eqb_eq in Hfirst. rewrite Hfirst.
    reflexivity.
  - intros first rest -> Hfirst. unfold generateResult.
    apply String.eqb_neq in Hfirst. by rewrite Hfirst.
Qed.

(** The theorem at work: a client that watched from the cursor "c1" and
    got no event is handed "c1" back. *)
Lemma generateResp_rules_witness :
  Data (generateResp "no-event" "c1" Host []) =
  {| Watched := false;
     Events := [{| Cursor_ := "c1"; Resource := Host; EventType := ""; Detail := Go.JNull |}] |}.
Proof.
  apply (proj1 (proj2 (proj2 (generateResp_rules "no-event" "c1" Host [])))).
  - reflexivity.
  - discriminate.
Defined.

End ServiceSpec.

(** ** The event handler *)
Module HandlerSpec.
Import Metadata Handler.

(** C9. [Start] returns an error exactly when the redis cache, the
    distributer or the hash ring is nil; it then launches nothing.  When
    all three are set it returns nil and launches the loop that pops and
    handles events. *)
Theorem Start_error_iff_dependency_nil (h : EventHandler) :
  (fst (Start h) ≠ None <-> cache h = None ∨ distributer h = None ∨ hash h = None) ∧
  (fst (Start h) ≠ None -> snd (Start h) = []) ∧
  (cache h ≠ None -> distributer h ≠ None -> hash h ≠ None ->
   Start h = (None, [PopAndHandleLoop])).
Proof.
  unfold Start.
  destruct (cache h) as [c|], (distributer h) as [d|], (hash h) as [g|]; simpl;
    (split; [split; [intros H; try (exfalso; by apply H); auto
                    |intros [H|[H|H]]; congruence]
            |split; [reflexivity || (intros H; exfalso; by apply H)
                    |intros H1 H2 H3; congruence]]).
Qed.

(** The theorem at work: a handler without a distributer does not start. *)
Lemma Start_error_iff_dependency_nil_witness :
  fst (Start {| cache := Some Redis.empty; distributer := None;
                hash := Some {| Sender.IsMatch := fun _ => true |} |}) ≠ None.
Proof.
  apply (proj2 (proj1 (Start_error_iff_dependency_nil _))).
  right. left. reflexivity.
Defined.

(** An object event with no data is dropped: no dist, no error. *)
Lemma getDistInst_empty_data (event : EventInst) :
  EventType event = EventTypeInstData -> ObjType event = BKInnerObjIDObject ->
  Data event = [] ->
  getDistInst event = Go.Returns ([], None).
Proof. intros Ht Ho Hd. unfold getDistInst. by rewrite Ht, Ho, Hd. Qed.

(** A decisive payload that is no JSON object is an error. *)
Lemma getDistInst_not_object (event : EventInst) (data0 : EventData) (rest : list EventData) :
  EventType event = EventTypeInstData -> ObjType event = BKInnerObjIDObject ->
  Data event = data0 :: rest -> isObject (decisive event data0) = false ->
  exists err, getDistInst event = Go.Returns ([], Some err).
Proof.
  intros Ht Ho Hd Hobj. unfold getDistInst. rewrite Ht, Ho, Hd. simpl.
  unfold decisive in Hobj.
  destruct (if String.eqb (Action event) EventActionDelete then PreData data0 else CurData data0);
    try discriminate; eauto.
Qed.

(** A decisive payload that is a JSON object whose [bk_obj_id] is missing,
    null or a string gives exactly one dist, however many items there are. *)
Lemma getDistInst_one (event : EventInst) (data0 : EventData) (rest : list EventData)
    (m : list (string * Go.JSON)) :
  EventType event = EventTypeInstData -> ObjType event = BKInnerObjIDObject ->
  Data event = data0 :: rest -> decisive event data0 = Go.JObject m ->
  (Go.index BKObjIDField m = Go.JNull \/ exists s, Go.index BKObjIDField m = Go.JString s) ->
  exists dist, getDistInst event = Go.Returns ([dist], None).
Proof.
  intros Ht Ho Hd Hobj Hid. unfold getDistInst. rewrite Ht, Ho, Hd. simpl.
  unfold decisive in Hobj. rewrite Hobj.
  destruct Hid as [->|[s ->]]; eauto.
Qed.

(** C10, at the input where the code leaves it.  The decisive payload of
    [numberedObjectEvent] is a JSON object, so no error is due and the claim
    promises exactly one dist; the unchecked conversion of [bk_obj_id] to a
    string panics instead, and nothing is returned. *)
Theorem getDistInst_panics_on_number_obj_id :
  isObject (decisive numberedObjectEvent
              {| CurData := Go.JObject [(BKObjIDField, Go.JNumber 5)]; PreData := Go.JNull |})
  = true ∧
  getDistInst numberedObjectEvent
  = Go.Panics "interface conversion: interface {} is not string" ∧
  (forall r, getDistInst numberedObjectEvent ≠ Go.Returns r).
Proof. repeat split. intros r. discriminate. Qed.

(** The event inst that [Handle] fills in is the one of the spec's tables:
    the resource gives the event type and the object type, the watch event
    type gives the action, and an unknown resource or event type gives
    none. *)
Lemma eventInstOf_follows_table (now : Go.Time) (event : Watch.WatchEventDetail) :
  eventInstOf now event = tableEventInst now event.
Proof.
  unfold eventInstOf, tableEventInst, actionOf. simpl.
  repeat (match goal with
          | |- context [String.eqb ?a ?b] => destruct (String.eqb a b)
          end; try reflexivity).
Qed.

Section Handle.

Variable json_Marshal : marshalable -> Go.result string.

(** An event of an unknown resource or event type pushes nothing. *)
Lemma handleOne_skips_unknown (now : Go.Time) (c : Redis.Cache)
    (event : Watch.WatchEventDetail) :
  tableEventInst now event = None -> handleOne json_Marshal now c event = c.
Proof.
  intros H. unfold handleOne. by rewrite eventInstOf_follows_table, H.
Qed.

(** For a known event, what is pushed to the main queue is the document of
    the watch event detail itself; the event inst does not reach the
    marshaller. *)
Lemma handleOne_pushes_the_detail (now : Go.Time) (c : Redis.Cache)
    (event : Watch.WatchEventDetail) (eventInst : EventInst) (eventData : string) :
  tableEventInst now event = Some eventInst ->
  json_Marshal (OfWatchEventDetail event) = Go.Ok eventData ->
  handleOne json_Marshal now c event
  = Redis.LPush Types_.EventCacheEventQueueKey eventData c.
Proof.
  intros H Hm. unfold handleOne. by rewrite eventInstOf_follows_table, H, Hm.
Qed.

End Handle.

(** C2, at the input where the code leaves it.  [Handle] maps the created
    host to the event inst of the table (instance data, host, create), and
    then pushes to the main queue the document of the watch event detail,
    which is not the document of that event inst. *)
Theorem Handle_pushes_detail_not_event_inst :
  let now := {| Go.Unix := 1000 |} in
  exists eventInst pushed wanted,
    eventInstOf now Sample.hostCreated = Some eventInst ∧
    (EventType eventInst, ObjType eventInst, Action eventInst)
    = (EventTypeInstData, BKInnerObjIDHost, EventActionCreate) ∧
    Sample.marshalEvent (OfEventInst eventInst) = Go.Ok wanted ∧
    Sample.marshalEvent (OfWatchEventDetail Sample.hostCreated) = Go.Ok pushed ∧
    Handle Sample.marshalEvent now [Sample.hostCreated] Redis.empty
    = (Redis.LPush Types_.EventCacheEventQueueKey pushed Redis.empty, None) ∧
    pushed ≠ wanted.
Proof.
  simpl. eexists _, _, _. repeat split. discriminate.
Qed.

End HandlerSpec.

(** ** The subscription registry *)
Module RegistrySpec.
Import Metadata Distribution Sample.

Lemma alreadyExist_spec (subid : Z) (ids : list Z) :
  alreadyExist subid ids = true <-> subid ∈ ids.
Proof.
  induction ids as [|id ids IH]; simpl.
  - split; [discriminate|]. intros H. by apply not_elem_of_nil in H.
  - destruct (Z.eqb_spec subid id) as [->|Hne].
    + split; [intros _; apply elem_of_cons; by left|reflexivity].
    + rewrite IH. split; [intros H; apply elem_of_cons; by right|].
      intros H. apply elem_of_cons in H as [H|H]; [contradiction|exact H].
Qed.

Lemma updated_absent (subid : Z) (ids : list Z) :
  subid ∉ ids -> updated subid ids = ids.
Proof.
  induction ids as [|id ids IH]; simpl; [reflexivity|].
  intros H. apply not_elem_of_cons in H as [Hne Hrest].
  destruct (Z.eqb_spec subid id) as [->|_]; [contradiction|].
  by rewrite IH.
Qed.

Lemma updated_removes (subid : Z) (ids : list Z) : subid ∉ updated subid ids.
Proof.
  induction ids as [|id ids IH]; simpl; [apply not_elem_of_nil|].
  destruct (Z.eqb_spec subid id) as [->|Hne]; [exact IH|].
  by apply not_elem_of_cons.
Qed.

Lemma bucket_insert (k : string) (ids : list Z) (subs : gmap string (list Z)) :
  bucket k (<[k := ids]> subs) = ids.
Proof. unfold bucket. by rewrite lookup_insert_eq. Qed.

Lemma bucket_insert_ne (k k' : string) (ids : list Z) (subs : gmap string (list Z)) :
  k ≠ k' -> bucket k' (<[k := ids]> subs) = bucket k' subs.
Proof. intros H. unfold bucket. by rewrite lookup_insert_ne. Qed.

Lemma count_occ_absent (subid : Z) (ids : list Z) :
  subid ∉ ids -> count_occ Z.eq_dec ids subid = 0%nat.
Proof. intros H. apply count_occ_not_In. by rewrite <- list_elem_of_In. Qed.

Lemma count_occ_present (subid : Z) (ids : list Z) :
  subid ∈ ids -> (1 <= count_occ Z.eq_dec ids subid)%nat.
Proof. intros H. apply list_elem_of_In in H. apply (count_occ_In Z.eq_dec) in H. lia. Qed.

Lemma addSubscriber_twice (o e : string) (subid : Z) (subs : gmap string (list Z)) :
  addSubscriber o e subid (addSubscriber o e subid subs) = addSubscriber o e subid subs.
Proof.
  unfold addSubscriber at 2.
  destruct (alreadyExist subid (bucket (subscriberKey o e) subs)) eqn:E.
  - unfold addSubscriber. by rewrite E.
  - unfold addSubscriber. rewrite bucket_insert.
    assert (H : alreadyExist subid (bucket (subscriberKey o e) subs ++ [subid]) = true).
    { apply alreadyExist_spec. apply elem_of_app. right. by apply list_elem_of_singleton. }
    by rewrite H, E.
Qed.

Lemma addSubscriber_count (o e : string) (subid : Z) (subs : gmap string (list Z)) :
  count_occ Z.eq_dec (bucket (subscriberKey o e) (addSubscriber o e subid subs)) subid
  = Nat.max 1 (count_occ Z.eq_dec (bucket (subscriberKey o e) subs) subid).
Proof.
  unfold addSubscriber.
  destruct (alreadyExist subid (bucket (subscriberKey o e) subs)) eqn:E.
  - apply alreadyExist_spec, count_occ_present in E. lia.
  - rewrite bucket_insert, count_occ_app. simpl.
    assert (H : subid ∉ bucket (subscriberKey o e) subs).
    { intros H. apply alreadyExist_spec in H. congruence. }
    rewrite (count_occ_absent _ _ H).
    destruct (Z.eq_dec subid subid); [reflexivity|contradiction].
Qed.

Lemma updated_sub (subid x : Z) (ids : list Z) : x ∈ updated subid ids -> x ∈ ids.
Proof.
  induction ids as [|id ids IH]; simpl; [done|].
  destruct (Z.eqb subid id).
  - intros H. apply elem_of_cons. right. by apply IH.
  - intros H. apply elem_of_cons in H as [->|H]; apply elem_of_cons; [by left|].
    right. by apply IH.
Qed.

Lemma updated_NoDup (subid : Z) (ids : list Z) : NoDup ids -> NoDup (updated subid ids).
Proof.
  induction ids as [|id ids IH]; simpl; [done|].
  intros H. apply NoDup_cons in H as [Hid Hids].
  destruct (Z.eqb subid id); [by apply IH|].
  apply NoDup_cons. split; [|by apply IH].
  intros H. by apply Hid, (updated_sub subid).
Qed.

(** Every call on the index keeps every bucket free of repetitions. *)
Lemma invoke_NoDup (c : indexCall) (subs : gmap string (list Z)) :
  (forall k, NoDup (bucket k subs)) -> forall k, NoDup (bucket k (invoke subs c)).
Proof.
  intros Hsubs k. destruct c as [o e subid|o e subid]; simpl.
  - unfold addSubscriber.
    destruct (alreadyExist subid (bucket (subscriberKey o e) subs)) eqn:E; [apply Hsubs|].
    destruct (decide (subscriberKey o e = k)) as [<-|Hne].
    + rewrite bucket_insert. apply NoDup_app. split; [apply Hsubs|]. split.
      * intros x Hx Hx'. apply list_elem_of_singleton in Hx' as ->.
        apply alreadyExist_spec in Hx. congruence.
      * apply NoDup_singleton.
    + rewrite bucket_insert_ne by exact Hne. apply Hsubs.
  - unfold remSubscriber. destruct (decide (subscriberKey o e = k)) as [<-|Hne].
    + rewrite bucket_insert. apply updated_NoDup, Hsubs.
    + rewrite bucket_insert_ne by exact Hne. apply Hsubs.
Qed.

Lemma index_NoDup (calls : list indexCall) :
  forall subs : gmap string (list Z),
    (forall k, NoDup (bucket k subs)) -> forall k, NoDup (bucket k (foldl invoke subs calls)).
Proof.
  induction calls as [|c calls IH]; intros subs Hsubs; simpl; [exact Hsubs|].
  apply IH. by apply invoke_NoDup.
Qed.

(** C8. Adding a subscriber twice leaves the index as adding it once does,
    and an add leaves the id in its bucket as often as it was there, or
    once if it was not there; in the index that any calls of
    [addSubscriber] and [remSubscriber] build from the empty one, no bucket
    holds an id more than once.  Removing an id from a bucket that does not
    hold it leaves the ids of the bucket as they were (the bucket's key is
    then in the map, with these ids), and removing twice is removing
    once. *)
Theorem subscriber_index_idempotent (o e : string) (subid : Z) (subs : gmap string (list Z)) :
  addSubscriber o e subid (addSubscriber o e subid subs) = addSubscriber o e subid subs ∧
  count_occ Z.eq_dec (bucket (subscriberKey o e) (addSubscriber o e subid subs)) subid
    = Nat.max 1 (count_occ Z.eq_dec (bucket (subscriberKey o e) subs) subid) ∧
  (forall (calls : list indexCall) (k : string),
      NoDup (bucket k (foldl invoke (subscribers NewDistributer) calls))) ∧
  (subid ∉ bucket (subscriberKey o e) subs ->
   forall k, bucket k (remSubscriber o e subid subs) = bucket k subs) ∧
  remSubscriber o e subid (remSubscriber o e subid subs) = remSubscriber o e subid subs.
Proof.
  split; [apply addSubscriber_twice|].
  split; [apply addSubscriber_count|].
  split.
  { intros calls. apply index_NoDup. intros k. unfold bucket. simpl.
    rewrite lookup_empty. apply NoDup_nil_2. }
  split.
  - intros H k. unfold remSubscriber.
    destruct (decide (subscriberKey o e = k)) as [<-|Hne].
    + rewrite bucket_insert. by apply updated_absent.
    + by rewrite bucket_insert_ne.
  - unfold remSubscriber. rewrite bucket_insert, insert_insert_eq.
    rewrite (updated_absent subid (updated subid _)); [reflexivity|].
    apply updated_removes.
Qed.

(** The theorem at work: subscription 7 is removed from a bucket of owner
    "0" that only holds 8. *)
Lemma subscriber_index_idempotent_witness :
  bucket (subscriberKey "0" "hostcreate")
    (remSubscriber "0" "hostcreate" 7 {[ subscriberKey "0" "hostcreate" := [8] ]})
  = bucket (subscriberKey "0" "hostcreate") {[ subscriberKey "0" "hostcreate" := [8] ]}.
Proof.
  apply (proj1 (proj2 (proj2 (proj2
           (subscriber_index_idempotent "0" "hostcreate" 7
              {[ subscriberKey "0" "hostcreate" := [8] ]}))))).
  vm_compute. intros H. apply elem_of_cons in H as [H|H]; [discriminate|].
  by apply not_elem_of_nil in H.
Defined.

Lemma Split_free (sep : ascii) (s : string) :
  Go.free_of sep s = true -> Go.Split sep s = [s].
Proof.
  induction s as [|c s IH]; simpl; [reflexivity|].
  destruct (Ascii.eqb c sep); simpl; [discriminate|].
  intros H. by rewrite (IH H).
Qed.

Lemma Split_app (sep : ascii) (a b : string) :
  Go.free_of sep a = true -> Go.Split sep (a +:+ String sep b) = a :: Go.Split sep b.
Proof.
  induction a as [|c a IH]; simpl.
  - intros _. by rewrite Ascii.eqb_refl.
  - destruct (Ascii.eqb c sep); simpl; [discriminate|].
    intros H. by rewrite (IH H).
Qed.

Lemma Split_pair (sep : ascii) (a b : string) :
  Go.free_of sep a = true -> Go.free_of sep b = true ->
  Go.Split sep (a +:+ String sep EmptyString +:+ b) = [a; b].
Proof.
  intros Ha Hb. change (String sep EmptyString +:+ b) with (String sep b).
  by rewrite Split_app, Split_free.
Qed.

Lemma not_in_pair (x a b : string) : x ≠ a -> x ≠ b -> x ∉ [a; b].
Proof.
  intros Ha Hb. rewrite !not_elem_of_cons. repeat split; auto using not_elem_of_nil.
Qed.

Lemma CalSliceDiff_shift (A B C : string) :
  A ≠ B -> A ≠ C -> B ≠ C -> CalSliceDiff [A; B] [B; C] = ([A], [C]).
Proof.
  intros HAB HAC HBC. unfold CalSliceDiff. f_equal.
  - rewrite filter_cons_True by (by apply not_in_pair).
    rewrite filter_cons_False; [reflexivity|].
    intros H. apply H, elem_of_cons. by left.
  - rewrite filter_cons_False.
    + rewrite filter_cons_True; [reflexivity|]. by apply not_in_pair.
    + intros H. apply H, elem_of_cons. right. apply elem_of_cons. by left.
Qed.

Section Upsert.

Variable GetCacheKey : Subscription -> string.

(** C5. When the id is already registered and the form goes from "A,B" to
    "B,C", the upsert handler calls [remSubscriber] for A and then
    [addSubscriber] for C, and nothing else, so that the index is the old
    one with these two calls applied; the stored document is replaced when
    the cache key differs from the stored document's and is kept when the
    cache keys are equal. *)
Theorem onUpsert_registry_diff (d : Distributer) (old sub : Subscription) (A B C : string) :
  Go.free_of "," A = true -> Go.free_of "," B = true -> Go.free_of "," C = true ->
  A ≠ B -> A ≠ C -> B ≠ C ->
  subscriptions d !! SubscriptionID sub = Some old ->
  SubscriptionForm old = A +:+ "," +:+ B ->
  SubscriptionForm sub = B +:+ "," +:+ C ->
  let result := onUpsertSubscriptions GetCacheKey sub d in
  snd result = [CallRemSubscriber (OwnerID sub) A (SubscriptionID sub);
                CallAddSubscriber (OwnerID sub) C (SubscriptionID sub)] ∧
  subscribers (fst result)
    = addSubscriber (OwnerID sub) C (SubscriptionID sub)
        (remSubscriber (OwnerID sub) A (SubscriptionID sub) (subscribers d)) ∧
  (GetCacheKey sub ≠ GetCacheKey old ->
   subscriptions (fst result) = <[SubscriptionID sub := sub]> (subscriptions d)) ∧
  (GetCacheKey sub = GetCacheKey old ->
   subscriptions (fst result) = subscriptions d).
Proof.
  intros HA HB HC HAB HAC HBC Hold Hfo Hfs. simpl.
  unfold onUpsertSubscriptions. rewrite Hold, Hfo, Hfs.
  rewrite !Split_pair by assumption.
  rewrite CalSliceDiff_shift by assumption. simpl.
  repeat split.
  - intros Hne. apply String.eqb_neq in Hne. by rewrite Hne.
  - intros Heq. apply String.eqb_eq in Heq. by rewrite Heq.
Qed.

End Upsert.

(** The theorem at work, the cache key being the callback URL. *)
Lemma onUpsert_registry_diff_witness :
  snd (onUpsertSubscriptions CallbackURL updatedSubscription registered)
  = [CallRemSubscriber "0" "hostcreate" 7; CallAddSubscriber "0" "hostdelete" 7].
Proof.
  apply (proj1 (onUpsert_registry_diff CallbackURL registered storedSubscription
                  updatedSubscription "hostcreate" "hostupdate" "hostdelete"
                  eq_refl eq_refl eq_refl ltac:(discriminate) ltac:(discriminate)
                  ltac:(discriminate) eq_refl eq_refl eq_refl)).
Defined.

End RegistrySpec.

(** ** The event sender *)
Module SenderSpec.
Import Metadata Distribution Sender.

Lemma HGet_HIncrBy_other_field (key field field' : string) (n : Z) (c : Redis.Cache) :
  field ≠ field' ->
  Redis.HGet key field' (Redis.HIncrBy key field n c) = Redis.HGet key field' c.
Proof.
  intros Hne. unfold Redis.HIncrBy, Redis.HGet.
  case_bool_decide; [|reflexivity]. simpl.
  by rewrite lookup_insert_eq; simpl; rewrite lookup_insert_ne.
Qed.

Lemma HGet_HIncrBy (key field : string) (n : Z) (c : Redis.Cache) :
  - 2 ^ 63 <= Redis.HGet key field c + n < 2 ^ 63 ->
  Redis.HGet key field (Redis.HIncrBy key field n c) = Redis.HGet key field c + n.
Proof.
  intros Hrange. unfold Redis.HIncrBy. unfold Redis.HGet in *.
  rewrite bool_decide_true by exact Hrange. simpl.
  by rewrite lookup_insert_eq; simpl; rewrite lookup_insert_eq.
Qed.

Lemma failue_increaseTotal (subid subid' : Z) (w : World) :
  failue subid' (increaseTotal subid w) = failue subid' w.
Proof.
  unfold failue, increaseTotal, statIncrease. simpl.
  unfold Redis.HIncrBy, Redis.HGet. case_bool_decide; [|reflexivity]. simpl.
  destruct (decide (Types_.EventCacheDistCallBackCountPrefix +:+ Go.Itoa subid
                    = Types_.EventCacheDistCallBackCountPrefix +:+ Go.Itoa subid'))
    as [E|E].
  - rewrite <- E, lookup_insert_eq. simpl. by rewrite lookup_insert_ne.
  - by rewrite lookup_insert_ne.
Qed.

Section Send.

Variable json_Marshal : DistInst -> Go.result string.
Variable json_Unmarshal : string -> Go.result DistInst.
Variable url_Parse : string -> option Go.error.
Variable DoWithTimeout : Z -> Request -> Go.result HTTPResponse.
Variable Regexp : Type.
Variable regexp_Compile : string -> Go.result Regexp.
Variable regexp_Match : Regexp -> string -> bool.

Local Abbreviation send := (send json_Marshal url_Parse DoWithTimeout Regexp regexp_Compile regexp_Match).
Local Abbreviation sendBody :=
  (sendBody json_Marshal url_Parse DoWithTimeout Regexp regexp_Compile regexp_Match).
Local Abbreviation runIteration :=
  (runIteration json_Marshal json_Unmarshal url_Parse DoWithTimeout Regexp regexp_Compile
     regexp_Match).

(** Every send that finds its subscription counts one more in [total]. *)
Lemma send_counts_total (subid : Z) (d : Distributer) (dist : DistInst) (w : World)
    (subscription : Subscription) :
  FindSubscription subid d = Some subscription ->
  - 2 ^ 63 <= total (SubscriptionID subscription) w + 1 < 2 ^ 63 ->
  total (SubscriptionID subscription) (fst (send subid d dist w))
  = total (SubscriptionID subscription) w + 1.
Proof.
  intros Hfind Hrange. unfold Sender.send. rewrite Hfind.
  set (w1 := increaseTotal (SubscriptionID subscription) w).
  assert (H1 : total (SubscriptionID subscription) w1
               = total (SubscriptionID subscription) w + 1).
  { unfold w1, total, increaseTotal, statIncrease. simpl. by apply HGet_HIncrBy. }
  assert (Hbody : cache (fst (fst (sendBody subscription dist w1))) = cache w1).
  { unfold Sender.sendBody.
    repeat (match goal with
            | |- context [match ?x with _ => _ end] => destruct x
            end; simpl; try reflexivity). }
  destruct (sendBody subscription dist w1) as [[w2 errFinal] ret]. simpl in *.
  destruct errFinal as [e|]; simpl.
  - unfold total, increaseFailure, statIncrease. simpl.
    rewrite HGet_HIncrBy_other_field by discriminate.
    rewrite Hbody. exact H1.
  - unfold total. rewrite Hbody. exact H1.
Qed.

(** When the callback answers and the confirmation predicate fails, the
    send returns an error, the request has gone out, and [failue] is what
    it was: the deferred increment sees an [errFinal] that was assigned the
    nil [err]. *)
Lemma send_confirmation_failure_not_counted (subid : Z) (d : Distributer) (dist : DistInst)
    (w : World) (subscription : Subscription) (distData respData : string)
    (resp : HTTPResponse) :
  FindSubscription subid d = Some subscription ->
  json_Marshal dist = Go.Ok distData ->
  url_Parse (CallbackURL subscription) = None ->
  DoWithTimeout (Timeout (callbackRequest subscription distData))
    (callbackRequest subscription distData) = Go.Ok resp ->
  Body resp = Go.Ok respData ->
  confirmFails Regexp regexp_Compile regexp_Match subscription resp respData ->
  snd (send subid d dist w) ≠ None ∧
  posts (fst (send subid d dist w)) = posts w ++ [callbackRequest subscription distData] ∧
  failue (SubscriptionID subscription) (fst (send subid d dist w))
  = failue (SubscriptionID subscription) w.
Proof.
  intros Hfind Hm Hu Hdo Hbody Hconfirm.
  unfold Sender.send. rewrite Hfind. unfold Sender.sendBody.
  rewrite Hm, Hu. cbv zeta. rewrite Hdo, Hbody.
  destruct Hconfirm as [[Hmode Hne]|[Hmode (pattern & Hc & Hmatch)]].
  - rewrite Hmode. rewrite String.eqb_refl.
    apply String.eqb_neq in Hne. rewrite Hne. simpl.
    repeat split; [discriminate|]. apply failue_increaseTotal.
  - rewrite Hmode. simpl. rewrite Hc, Hmatch. simpl.
    repeat split; [discriminate|]. apply failue_increaseTotal.
Qed.

Lemma wrap64_small (z : Z) : - 2 ^ 63 <= z < 2 ^ 63 -> Go.wrap64 z = z.
Proof. intros H. unfold Go.wrap64. rewrite Z.mod_small; lia. Qed.

(** C6. A dist that the loop of [run] pops from the queue of its
    subscriber and whose action time lies more than 300 seconds before the
    current time (both read in Unix seconds, as the loop reads them) is
    dropped: the turn of the loop takes it off the queue and does nothing
    else, so no request goes out and no counter of any subscription, in
    particular neither [total] nor [failue], changes. *)
Theorem run_drops_fused_dist (hash : Hash) (subid : Z) (d : Distributer) (now : Go.Time)
    (w : World) (distData : string) (rest : list string) (dist : DistInst) :
  let queue := Types_.EventCacheSubscriberEventQueueKeyPrefix +:+ Go.Itoa subid in
  IsMatch hash (Go.Itoa subid) = true ->
  Redis.lists (cache w) !! queue = Some (distData :: rest) ->
  distData ≠ Types_.NilStr -> distData ≠ "" ->
  json_Unmarshal distData = Go.Ok dist ->
  plausible now -> plausible (ActionTime (Inst dist)) ->
  Go.Unix now - Go.Unix (ActionTime (Inst dist)) > 300 ->
  let w' := runIteration hash subid d now w in
  w' = {| cache := snd (Redis.BLPop queue (cache w)); posts := posts w |} ∧
  posts w' = posts w ∧
  Redis.hashes (cache w') = Redis.hashes (cache w) ∧
  (forall id, total id w' = total id w ∧ failue id w' = failue id w).
Proof.
  intros queue Hmatch Hq Hnil Hempty Hdec Hnow Hat Hold w'.
  assert (Hw : w' = {| cache := snd (Redis.BLPop queue (cache w)); posts := posts w |}).
  { unfold w', Sender.runIteration. rewrite Hmatch. simpl. fold queue.
    unfold Redis.BLPop. rewrite Hq. simpl.
    apply String.eqb_neq in Hnil. rewrite Hnil. simpl.
    destruct distData as [|c s]; [contradiction|]. simpl.
    rewrite Hdec. unfold plausible in *. rewrite wrap64_small by lia.
    unfold defaultFusingEventExpireSec.
    destruct (Z.gtb_spec (Go.Unix now - Go.Unix (ActionTime (Inst dist))) (5 * 60));
      [reflexivity|lia]. }
  assert (Hh : Redis.hashes (cache w') = Redis.hashes (cache w)).
  { rewrite Hw. simpl. unfold Redis.BLPop. rewrite Hq. reflexivity. }
  split; [exact Hw|]. split; [by rewrite Hw|]. split; [exact Hh|].
  intros id. unfold total, failue, Redis.HGet. by rewrite Hh.
Qed.

(** A dist that is not older than 300 seconds is handed to [send]. *)
Lemma run_sends_fresh_dist (hash : Hash) (subid : Z) (d : Distributer) (now : Go.Time)
    (w : World) (distData : string) (rest : list string) (dist : DistInst) :
  let queue := Types_.EventCacheSubscriberEventQueueKeyPrefix +:+ Go.Itoa subid in
  IsMatch hash (Go.Itoa subid) = true ->
  Redis.lists (cache w) !! queue = Some (distData :: rest) ->
  distData ≠ Types_.NilStr -> distData ≠ "" ->
  json_Unmarshal distData = Go.Ok dist ->
  plausible now -> plausible (ActionTime (Inst dist)) ->
  Go.Unix now - Go.Unix (ActionTime (Inst dist)) <= 300 ->
  runIteration hash subid d now w
  = fst (send subid d dist
           {| cache := snd (Redis.BLPop queue (cache w)); posts := posts w |}).
Proof.
  intros queue Hmatch Hq Hnil Hempty Hdec Hnow Hat Hfresh.
  unfold Sender.runIteration. rewrite Hmatch. simpl. fold queue.
  unfold Redis.BLPop. rewrite Hq. simpl.
  apply String.eqb_neq in Hnil. rewrite Hnil. simpl.
  destruct distData as [|c s]; [contradiction|]. simpl.
  rewrite Hdec. unfold plausible in *. rewrite wrap64_small by lia.
  unfold defaultFusingEventExpireSec.
  destruct (Z.gtb_spec (Go.Unix now - Go.Unix (ActionTime (Inst dist))) (5 * 60));
    [lia|reflexivity].
Qed.

End Send.

(** The theorem at work: at the Unix second 1301 the sender of
    subscription 7 pops a dist of the second 1000, and nothing goes out. *)
Lemma run_drops_fused_dist_witness :
  posts (runIteration Sample.marshal Sample.unmarshal Sample.urlParse Sample.answer500
           string Sample.compile Sample.prefixMatch
           Sample.ring 7 Sample.registered {| Go.Unix := 1301 |} Sample.queued)
  = posts Sample.queued.
Proof.
  apply (run_drops_fused_dist Sample.marshal Sample.unmarshal Sample.urlParse
           Sample.answer500 string Sample.compile Sample.prefixMatch
           Sample.ring 7 Sample.registered {| Go.Unix := 1301 |} Sample.queued
           "dist-1" [] Sample.staleDist).
  - reflexivity.
  - reflexivity.
  - discriminate.
  - discriminate.
  - reflexivity.
  - unfold plausible. simpl. lia.
  - unfold plausible. simpl. lia.
  - simpl. lia.
Defined.

(** The loop reads both times in whole Unix seconds.  A dist that is 301
    seconds old or older is more than 300 Unix seconds old, whatever the
    fractions of the two readings, and a dist that is more than 300 Unix
    seconds old is more than 300 seconds old. *)
Lemma unix_age_of_age (now actionTime : Go.Instant) :
  0 <= Go.Nanoseconds now < 1000000000 ->
  0 <= Go.Nanoseconds actionTime < 1000000000 ->
  (Go.Sub now actionTime >= 301 * 1000000000 ->
   Go.Unix (Go.UnixOf now) - Go.Unix (Go.UnixOf actionTime) > 300) ∧
  (Go.Unix (Go.UnixOf now) - Go.Unix (Go.UnixOf actionTime) > 300 ->
   Go.Sub now actionTime > 300 * 1000000000).
Proof. unfold Go.Sub, Go.UnixOf. simpl. lia. Qed.

(** C6 as the claim states it fails between 300 and 301 seconds.  The
    clock reads 1300.5 seconds when the sender of subscription 7 pops a dist
    whose action time is the second 1000: the dist is 300.5 seconds old,
    more than five minutes.  The loop compares [Unix()] with [Unix()],
    1300 - 1000 = 300, which is not more than 300: the dist is POSTed to the
    callback and [total] counts it. *)
Lemma run_posts_dist_older_than_300_seconds :
  let now := {| Go.Seconds := 1300; Go.Nanoseconds := 500000000 |} in
  let actionTime := {| Go.Seconds := 1000; Go.Nanoseconds := 0 |} in
  let w' := runIteration Sample.marshal Sample.unmarshal Sample.urlParse Sample.answer200
              string Sample.compile Sample.prefixMatch
              Sample.ring 7 Sample.registered (Go.UnixOf now) Sample.queued in
  Redis.LRange (Types_.EventCacheSubscriberEventQueueKeyPrefix +:+ Go.Itoa 7)
    (cache Sample.queued) = ["dist-1"] ∧
  Sample.unmarshal "dist-1" = Go.Ok Sample.staleDist ∧
  ActionTime (Inst Sample.staleDist) = Go.UnixOf actionTime ∧
  Go.Sub now actionTime > 300 * 1000000000 ∧
  posts Sample.queued = [] ∧
  posts w' = [{| Method := "POST"; URL := "http://x/"; Timeout := 10; Payload := "dist-1" |}] ∧
  total 7 Sample.queued = 0 ∧ total 7 w' = 1.
Proof. vm_compute. repeat split. Qed.

(** C1, at the input where the code leaves it.  Subscription 7 confirms by
    http status with the pattern "200", and its callback answers 500.  The
    send goes out once and returns the confirmation error, [total] counts
    it, and [failue], which the claim has incremented once, is still 0. *)
Theorem send_status_mismatch_leaves_failue :
  let result :=
    send Sample.marshal Sample.urlParse Sample.answer500 string Sample.compile
      Sample.prefixMatch 7 Sample.registered Sample.staleDist Sample.idle in
  snd result = Some "not confirm http pattern, received FAIL" ∧
  posts (fst result)
  = [{| Method := "POST"; URL := "http://x/"; Timeout := 10; Payload := "dist-1" |}] ∧
  total 7 Sample.idle = 0 ∧ total 7 (fst result) = 1 ∧
  failue 7 Sample.idle = 0 ∧ failue 7 (fst result) = 0.
Proof. vm_compute. repeat split. Qed.

End SenderSpec.

(** ** The resource cursor tracker *)
Module CursorSpec.
Import Distribution.

Lemma length_nonzero_iff (s : string) : negb (String.length s =? 0)%nat = true <-> s ≠ "".
Proof. destruct s; simpl; split; congruence. Qed.

(** Folding cursors into a map that already holds a cursor for the type:
    the cursor held at the end is the old one or one of the list, and no
    second of the list, nor the old one's, is below its own. *)
Lemma fold_from_some (ct : Watch.CursorType) (l : list Watch.Cursor) :
  forall (rc : gmap Watch.CursorType Watch.Cursor) (c0 : Watch.Cursor),
    rc !! ct = Some c0 ->
    exists c, foldl (fun rc c => updateOldest ct c rc) rc l !! ct = Some c ∧
              (c = c0 ∨ c ∈ l) ∧
              Watch.Sec (Watch.ClusterTime c) <= Watch.Sec (Watch.ClusterTime c0) ∧
              forall c', c' ∈ l ->
                   Watch.Sec (Watch.ClusterTime c) <= Watch.Sec (Watch.ClusterTime c').
Proof.
  induction l as [|x l IH]; intros rc c0 Hrc; simpl.
  - exists c0. repeat split; [exact Hrc|by left|lia|].
    intros c' H. by apply not_elem_of_nil in H.
  - unfold updateOldest at 2. rewrite Hrc.
    destruct (Z.ltb_spec (Watch.Sec (Watch.ClusterTime x)) (Watch.Sec (Watch.ClusterTime c0)))
      as [Hlt|Hge].
    + destruct (IH (<[ct := x]> rc) x (lookup_insert_eq _ _ _)) as (c & Hc & Hin & Hle & Hall).
      exists c. repeat split; [exact Hc| |lia|].
      * right. apply elem_of_cons. destruct Hin as [->|Hin]; [by left|by right].
      * intros c' H. apply elem_of_cons in H as [->|H]; [exact Hle|by apply Hall].
    + destruct (IH rc c0 Hrc) as (c & Hc & Hin & Hle & Hall).
      exists c. repeat split; [exact Hc| |exact Hle|].
      * destruct Hin as [->|Hin]; [by left|]. right. apply elem_of_cons. by right.
      * intros c' H. apply elem_of_cons in H as [->|H]; [lia|by apply Hall].
Qed.

(** Folding cursors into a map that holds none for the type: nothing is
    held at the end when the list is empty, and otherwise a cursor of the
    list whose second is the least. *)
Lemma fold_from_none (ct : Watch.CursorType) (l : list Watch.Cursor)
    (rc : gmap Watch.CursorType Watch.Cursor) :
  rc !! ct = None ->
  match foldl (fun rc c => updateOldest ct c rc) rc l !! ct with
  | None => l = []
  | Some c =>
      c ∈ l ∧
      forall c', c' ∈ l -> Watch.Sec (Watch.ClusterTime c) <= Watch.Sec (Watch.ClusterTime c')
  end.
Proof.
  intros Hrc. destruct l as [|x l]; simpl; [by rewrite Hrc|].
  unfold updateOldest at 2. rewrite Hrc.
  destruct (fold_from_some ct l (<[ct := x]> rc) x (lookup_insert_eq _ _ _))
    as (c & Hc & Hin & Hle & Hall).
  rewrite Hc. split.
  - apply elem_of_cons. destruct Hin as [->|Hin]; [by left|by right].
  - intros c' H. apply elem_of_cons in H as [->|H]; [exact Hle|by apply Hall].
Qed.

Section ResourceCursor.

Variable ParseCursorTypeFromEventType : string -> Watch.CursorType.
Variable Decode : string -> option Watch.Cursor.

Local Abbreviation rangeSubscribers := (rangeSubscribers Decode).
Local Abbreviation rangeBuckets := (rangeBuckets ParseCursorTypeFromEventType Decode).
Local Abbreviation getResourceCursor :=
  (getResourceCursor ParseCursorTypeFromEventType Decode).
Local Abbreviation bucketOf := (bucketOf ParseCursorTypeFromEventType).
Local Abbreviation persisted := (persisted ParseCursorTypeFromEventType Decode).
Local Abbreviation readable := (readable Decode).
Local Abbreviation allReadable := (allReadable ParseCursorTypeFromEventType Decode).
Local Abbreviation bucketCursors := (bucketCursors Decode).
Local Abbreviation allCursors := (allCursors ParseCursorTypeFromEventType Decode).

(** When every subscriber of the bucket is readable the inner loop does
    not fail, and folds the cursors of the bucket. *)
Lemma rangeSubscribers_folds (ct : Watch.CursorType) (k : string) (cache : Redis.Cache)
    (v : list Z) :
  forall rc : gmap Watch.CursorType Watch.Cursor,
    forallb (readable cache k) v = true ->
    rangeSubscribers ct k cache v rc
    = (foldl (fun rc c => updateOldest ct c rc) rc (bucketCursors k cache v), None).
Proof.
  induction v as [|subid v IH]; intros rc Hv; simpl; [reflexivity|].
  simpl in Hv. apply andb_prop in Hv as [Hsub Hv].
  unfold Distribution.readable in Hsub. unfold Redis.Get.
  destruct (Redis.strings cache !! subscriberCursorKey k subid) as [val|]; [|discriminate].
  destruct (String.length val =? 0)%nat; simpl.
  - by apply IH.
  - simpl in Hsub. destruct (Decode val) as [c|]; [|discriminate].
    simpl. by apply IH.
Qed.

(** When moreover every key is valid the outer loop does not fail, and
    folds the cursors of the buckets of the cursor type. *)
Lemma rangeBuckets_folds (ct : Watch.CursorType) (cache : Redis.Cache)
    (kvs : list (string * list Z)) :
  forall rc : gmap Watch.CursorType Watch.Cursor,
    keysValid kvs = true -> allReadable ct cache kvs = true ->
    rangeBuckets ct cache kvs rc
    = (foldl (fun rc c => updateOldest ct c rc) rc (allCursors ct cache kvs), None).
Proof.
  induction kvs as [|[k v] kvs IH]; intros rc Hk Hr; simpl; [reflexivity|].
  simpl in Hk, Hr. apply andb_prop in Hk as [Hk0 Hk]. apply andb_prop in Hr as [Hr0 Hr].
  unfold Distribution.bucketOf in *.
  destruct (Go.Split ":" k) as [|a [|e [|x rest]]]; try discriminate.
  destruct (String.eqb (ParseCursorTypeFromEventType e) ct); simpl in *.
  - rewrite rangeSubscribers_folds by exact Hr0.
    rewrite foldl_app. by apply IH.
  - by apply IH.
Qed.

Lemma elem_of_bucketCursors (k : string) (cache : Redis.Cache) (v : list Z) (c : Watch.Cursor) :
  c ∈ bucketCursors k cache v <->
  exists subid val, subid ∈ v ∧
    Redis.strings cache !! subscriberCursorKey k subid = Some val ∧ val ≠ "" ∧
    Decode val = Some c.
Proof.
  induction v as [|subid v IH]; simpl.
  - split; [intros H; by apply not_elem_of_nil in H|].
    intros (s & val & H & _). by apply not_elem_of_nil in H.
  - assert (Hrest : c ∈ bucketCursors k cache v ->
                    exists subid0 val, subid0 ∈ subid :: v ∧
                      Redis.strings cache !! subscriberCursorKey k subid0 = Some val ∧
                      val ≠ "" ∧ Decode val = Some c).
    { intros H. apply IH in H as (s & val & Hs & Hrest).
      exists s, val. split; [apply elem_of_cons; by right|exact Hrest]. }
    assert (Hback : forall P : Prop,
               (forall val, Redis.strings cache !! subscriberCursorKey k subid = Some val ->
                            val ≠ "" -> Decode val = Some c -> P) ->
               (c ∈ bucketCursors k cache v -> P) ->
               (exists subid0 val, subid0 ∈ subid :: v ∧
                  Redis.strings cache !! subscriberCursorKey k subid0 = Some val ∧
                  val ≠ "" ∧ Decode val = Some c) -> P).
    { intros P Hhead Htail (s & val & Hs & Hl & Hne & Hd).
      apply elem_of_cons in Hs as [->|Hs]; [by apply (Hhead val)|].
      apply Htail, IH. by exists s, val. }
    destruct (Redis.strings cache !! subscriberCursorKey k subid) as [val|] eqn:El.
    + destruct (negb (String.length val =? 0)%nat) eqn:En.
      * destruct (Decode val) as [c0|] eqn:Ed.
        -- split.
           ++ intros H. apply elem_of_cons in H as [->|H]; [|by apply Hrest].
              exists subid, val.
              split; [apply elem_of_cons; by left|]. split; [exact El|].
              split; [by apply length_nonzero_iff|exact Ed].
           ++ apply Hback; [|intros H; apply elem_of_cons; by right].
              intros val' Hl _ Hd. apply elem_of_cons. left. congruence.
        -- split; [exact Hrest|]. apply Hback; [|done].
           intros val' Hl _ Hd. congruence.
      * split; [exact Hrest|]. apply Hback; [|done].
        intros val' Hl Hne _. apply length_nonzero_iff in Hne. congruence.
    + split; [exact Hrest|]. apply Hback; [|done].
      intros val' Hl. discriminate.
Qed.

Lemma elem_of_allCursors (ct : Watch.CursorType) (cache : Redis.Cache)
    (kvs : list (string * list Z)) (c : Watch.Cursor) :
  c ∈ allCursors ct cache kvs <->
  exists k v, (k, v) ∈ kvs ∧ bucketOf ct k = true ∧ c ∈ bucketCursors k cache v.
Proof.
  induction kvs as [|[k v] kvs IH]; simpl.
  - split; [intros H; by apply not_elem_of_nil in H|].
    intros (k & v & H & _). by apply not_elem_of_nil in H.
  - destruct (bucketOf ct k) eqn:Eb.
    + rewrite elem_of_app, IH. split.
      * intros [H|(k' & v' & Hin & Hrest)].
        -- exists k, v. split; [apply elem_of_cons; by left|by split].
        -- exists k', v'. split; [apply elem_of_cons; by right|exact Hrest].
      * intros (k' & v' & Hin & Hb & Hc).
        apply elem_of_cons in Hin as [Heq|Hin].
        -- injection Heq as -> ->. by left.
        -- right. by exists k', v'.
    + rewrite IH. split.
      * intros (k' & v' & Hin & Hrest).
        exists k', v'. split; [apply elem_of_cons; by right|exact Hrest].
      * intros (k' & v' & Hin & Hb & Hc).
        apply elem_of_cons in Hin as [Heq|Hin].
        -- injection Heq as -> ->. congruence.
        -- by exists k', v'.
Qed.

(** The cursors the loops fold are the persisted cursors of the type. *)
Lemma allCursors_persisted (ct : Watch.CursorType) (cache : Redis.Cache) (d : Distributer)
    (kvs : list (string * list Z)) (c : Watch.Cursor) :
  rangeOrder d kvs -> (c ∈ allCursors ct cache kvs <-> persisted ct cache d c).
Proof.
  intros Hperm. unfold Distribution.persisted. rewrite elem_of_allCursors. split.
  - intros (k & v & Hin & Hb & Hc).
    apply elem_of_bucketCursors in Hc as (subid & val & Hs & Hl & Hne & Hd).
    exists k, v, subid, val. repeat split; try assumption.
    apply elem_of_map_to_list. by rewrite <- Hperm.
  - intros (k & v & subid & val & Hl & Hb & Hs & Hc & Hne & Hd).
    exists k, v. repeat split; [|exact Hb|].
    + rewrite Hperm. by apply elem_of_map_to_list.
    + apply elem_of_bucketCursors. by exists subid, val.
Qed.

(** The oldest cursor when every subscriber can be read.  Let the
    distributer hold no oldest cursor for the cursor type yet, let every
    subscribers key read owner:eventType, and let the cache hold, at the key
    the loop reads ([subscriberCursorKey]: the prefix, the subscribers key,
    a colon and the id as the verb %s prints an [int64]), for every
    subscriber of a bucket of the cursor type, a value that is empty or
    decodes.  Then, whatever the order in
    which the runtime ranges over the subscribers map, [getResourceCursor]
    returns without error; a subscriber whose value is empty is skipped;
    the result is nil when no subscriber of the type has a persisted
    cursor, and otherwise a persisted cursor of a subscriber of the type
    whose [ClusterTime.Sec] is the least among them. *)
Theorem getResourceCursor_oldest_persisted (ct : Watch.CursorType)
    (kvs : list (string * list Z)) (cache : Redis.Cache) (d : Distributer) :
  rangeOrder d kvs ->
  resourceCursors d !! ct = None ->
  keysValid kvs = true ->
  allReadable ct cache kvs = true ->
  exists d' r,
    getResourceCursor ct kvs cache d = (d', (r, None)) ∧
    subscribers d' = subscribers d ∧
    match r with
    | None => forall c, ¬ persisted ct cache d c
    | Some c =>
        persisted ct cache d c ∧
        forall c', persisted ct cache d c' ->
             Watch.Sec (Watch.ClusterTime c) <= Watch.Sec (Watch.ClusterTime c')
    end.
Proof.
  intros Hperm Hnone Hk Hr. unfold Distribution.getResourceCursor.
  rewrite rangeBuckets_folds by assumption.
  eexists _, _. split; [reflexivity|]. split; [reflexivity|].
  pose proof (fold_from_none ct (allCursors ct cache kvs) (resourceCursors d) Hnone) as H.
  destruct (foldl (fun rc c => updateOldest ct c rc) (resourceCursors d)
              (allCursors ct cache kvs) !! ct) as [c|].
  - destruct H as [Hin Hmin]. split.
    + by apply (allCursors_persisted ct cache d kvs).
    + intros c' Hc'. apply Hmin. by apply (allCursors_persisted ct cache d kvs).
  - intros c Hc. apply (allCursors_persisted ct cache d kvs c Hperm) in Hc.
    rewrite H in Hc. by apply not_elem_of_nil in Hc.
Qed.

(** A subscriber of the type for whom the cache holds no value makes the
    inner loop fail: the reply [redis.Nil] is an error like any other. *)
Lemma rangeSubscribers_absent_fails (ct : Watch.CursorType) (k : string) (cache : Redis.Cache)
    (subid : Z) (v : list Z) (rc : gmap Watch.CursorType Watch.Cursor) :
  Redis.strings cache !! subscriberCursorKey k subid = None ->
  exists err, rangeSubscribers ct k cache (subid :: v) rc = (rc, Some err).
Proof. intros H. simpl. unfold Redis.Get. rewrite H. eauto. Qed.

End ResourceCursor.

(** The theorem at work: the cursors of subscriptions 7 and 8 are of the
    seconds 5 and 3, and the tracker returns without error. *)
Lemma getResourceCursor_oldest_persisted_witness :
  exists d' r,
    getResourceCursor Sample.parseCursorType Sample.decode Watch.Host
      (map_to_list (subscribers Sample.twoSubscribers)) Sample.bothPersisted
      Sample.twoSubscribers = (d', (r, None)) ∧
    subscribers d' = subscribers Sample.twoSubscribers ∧
    match r with
    | None =>
        forall c, ¬ persisted Sample.parseCursorType Sample.decode Watch.Host
                      Sample.bothPersisted Sample.twoSubscribers c
    | Some c =>
        persisted Sample.parseCursorType Sample.decode Watch.Host
          Sample.bothPersisted Sample.twoSubscribers c ∧
        forall c', persisted Sample.parseCursorType Sample.decode Watch.Host
                     Sample.bothPersisted Sample.twoSubscribers c' ->
             Watch.Sec (Watch.ClusterTime c) <= Watch.Sec (Watch.ClusterTime c')
    end.
Proof.
  apply (getResourceCursor_oldest_persisted Sample.parseCursorType Sample.decode Watch.Host
           (map_to_list (subscribers Sample.twoSubscribers)) Sample.bothPersisted
           Sample.twoSubscribers).
  - unfold rangeOrder. reflexivity.
  - reflexivity.
  - vm_compute. reflexivity.
  - vm_compute. reflexivity.
Defined.

(** The same call computes the cursor of subscription 8, of the second 3. *)
Example getResourceCursor_both_persisted :
  snd (getResourceCursor Sample.parseCursorType Sample.decode Watch.Host
         (map_to_list (subscribers Sample.twoSubscribers)) Sample.bothPersisted
         Sample.twoSubscribers)
  = (Sample.decode "abc", None).
Proof. vm_compute. reflexivity. Qed.

(** C4, at the input where the code leaves it: subscription 7 has no
    cursor in the cache, subscription 8 has the cursor of the second 3.
    [Get] answers [redis.Nil] for subscription 7, the loop returns on every
    error (distributer.go, lines 230 to 233), and instead of skipping the
    subscriber, as it skips an empty value two lines below, and answering
    the cursor of subscription 8, the call fails and answers nil. *)
Lemma getResourceCursor_absent_cursor_fails :
  Redis.strings Sample.onePersisted !! subscriberCursorKey "0:hostcreate" 7 = None ∧
  persisted Sample.parseCursorType Sample.decode Watch.Host Sample.onePersisted
    Sample.twoSubscribers {| Watch.Type_ := Watch.Host;
                             Watch.ClusterTime := {| Watch.Sec := 3; Watch.Nano := 0 |};
                             Watch.Oid := "abc" |} ∧
  exists err,
    snd (getResourceCursor Sample.parseCursorType Sample.decode Watch.Host
           (map_to_list (subscribers Sample.twoSubscribers)) Sample.onePersisted
           Sample.twoSubscribers)
    = (None, Some err).
Proof.
  split; [reflexivity|]. split.
  - exists "0:hostcreate", [7; 8], 8, "abc".
    repeat split; [|discriminate].
    apply elem_of_cons. right. apply elem_of_cons. by left.
  - eexists. vm_compute. reflexivity.
Qed.

(** The key the loop reads ends in the id as the verb %s prints an
    [int64], not in the id in decimal: cursors that are stored at
    prefix, owner:eventType:7 and owner:eventType:8 are not found, and
    the call fails as it does for absent cursors. *)
Example getResourceCursor_misses_decimal_key :
  subscriberCursorKey "0:hostcreate" 7
  = Types_.EventCacheSubscriberCursorPrefix +:+ "0:hostcreate:%!s(int64=7)" ∧
  Redis.Get (Types_.EventCacheSubscriberCursorPrefix +:+ "0:hostcreate:7") Sample.decimalKeyed
  = ("abcde", None) ∧
  snd (getResourceCursor Sample.parseCursorType Sample.decode Watch.Host
         (map_to_list (subscribers Sample.twoSubscribers)) Sample.decimalKeyed
         Sample.twoSubscribers)
  = (None,
     Some ("parse resource cursors failed, quert subscriber cursor["
           +:+ subscriberCursorKey "0:hostcreate" 7 +:+ "], " +:+ Redis.Nil)).
Proof. vm_compute. repeat split. Qed.

(** The oldest cursor is kept across calls: after the call above has
    stored the cursor of the second 3, and subscription 8 has moved on to a
    cursor of the second 6, the next call still answers the cursor of the
    second 3, which is no subscriber's persisted cursor any more. *)
Example getResourceCursor_keeps_oldest_across_calls :
  let kvs := map_to_list (subscribers Sample.twoSubscribers) in
  let d1 := fst (getResourceCursor Sample.parseCursorType Sample.decode Watch.Host kvs
                   Sample.bothPersisted Sample.twoSubscribers) in
  let moved :=
    {| Redis.strings := <[subscriberCursorKey "0:hostcreate" 8 := "abcdef"]>
                          (Redis.strings Sample.bothPersisted);
       Redis.lists := ∅; Redis.hashes := ∅ |} in
  snd (getResourceCursor Sample.parseCursorType Sample.decode Watch.Host kvs moved d1)
  = (Sample.decode "abc", None).
Proof. vm_compute. reflexivity. Qed.

End CursorSpec.

(** * Part III: further properties of the sources *)

(** ** lock.go: what the calls leave alone *)
Module LockExtra.
Import Lock.

Lemma answer_by_mark (k : string) (r r' : gmap string bool) :
  (inProgress k r' <-> inProgress k r) -> fst (canRefresh k r') = fst (canRefresh k r).
Proof.
  unfold inProgress, canRefresh. intros H.
  destruct (r !! k) as [[|]|], (r' !! k) as [[|]|]; simpl; try reflexivity;
    exfalso; (discriminate (proj1 H eq_refl) || discriminate (proj2 H eq_refl)).
Qed.

Lemma canRefresh_keeps_marks (k k' : string) (r : gmap string bool) :
  inProgress k' (snd (canRefresh k r)) <-> inProgress k' r.
Proof.
  unfold inProgress, canRefresh. destruct (r !! k) as [b|] eqn:E; simpl; [reflexivity|].
  destruct (decide (k = k')) as [<-|Hne].
  - rewrite lookup_insert_eq, E. split; discriminate.
  - by rewrite lookup_insert_ne.
Qed.

(** [canRefresh] only asks.  Whatever keys are asked about, and however
    often, no key gets marked or unmarked, so that every answer stays what
    it was: a caller that was told yes holds nothing before it calls
    [setRefreshing], and a second caller is told yes as well. *)
Theorem canRefresh_only_asks (cs : list call) (r : gmap string bool) (k : string) :
  Forall asks cs ->
  (inProgress k (run cs r) <-> inProgress k r) ∧
  fst (canRefresh k (run cs r)) = fst (canRefresh k r).
Proof.
  intros Hcs.
  assert (H : inProgress k (run cs r) <-> inProgress k r).
  { revert r. induction Hcs as [|c cs Hc Hcs IH]; intros r; [reflexivity|].
    change (run (c :: cs) r) with (run cs (exec c r)). rewrite IH.
    destruct c as [k'|k'|k']; simpl in Hc; try contradiction.
    simpl. apply canRefresh_keeps_marks. }
  split; [exact H|]. by apply answer_by_mark.
Qed.

(** Two callers ask about "biz" on an empty table: both are told yes. *)
Lemma canRefresh_only_asks_witness :
  fst (canRefresh "biz" (run [CanRefresh "biz"] ∅)) = fst (canRefresh "biz" ∅).
Proof.
  refine (proj2 (canRefresh_only_asks [CanRefresh "biz"] ∅ "biz" _)).
  repeat constructor.
Defined.

Lemma exec_other_key (k : string) (c : call) (r : gmap string bool) :
  keyOf c ≠ k -> exec c r !! k = r !! k.
Proof.
  intros Hne. destruct c as [k'|k'|k']; simpl in *.
  - unfold canRefresh. destruct (r !! k'); simpl; [reflexivity|].
    by rewrite lookup_insert_ne.
  - unfold setRefreshing. by rewrite lookup_insert_ne.
  - unfold setUnRefreshing. by rewrite lookup_insert_ne.
Qed.

(** The keys are independent: calls about other keys leave the entry of a
    key, and with it the answer of [canRefresh] for the key, as they were. *)
Theorem calls_on_other_keys (cs : list call) (r : gmap string bool) (k : string) :
  Forall (fun c => keyOf c ≠ k) cs ->
  run cs r !! k = r !! k ∧ fst (canRefresh k (run cs r)) = fst (canRefresh k r).
Proof.
  intros Hcs.
  assert (H : run cs r !! k = r !! k).
  { revert r. induction Hcs as [|c cs Hc Hcs IH]; intros r; [reflexivity|].
    change (run (c :: cs) r) with (run cs (exec c r)). rewrite IH.
    by apply exec_other_key. }
  assert (Hf : fst (canRefresh k (run cs r)) = fst (canRefresh k r)).
  { unfold canRefresh. rewrite H. by destruct (r !! k). }
  split; [exact H|exact Hf].
Qed.

(** "set" is refreshed and released while "biz" is in progress. *)
Lemma calls_on_other_keys_witness :
  fst (canRefresh "biz" (run [SetRefreshing "set"; SetUnRefreshing "set"] {[ "biz" := true ]}))
  = fst (canRefresh "biz" {[ "biz" := true ]}).
Proof.
  refine (proj2 (calls_on_other_keys [SetRefreshing "set"; SetUnRefreshing "set"]
                  {[ "biz" := true ]} "biz" _)).
  repeat constructor; discriminate.
Defined.

End LockExtra.

(** ** service/watch.go: what a watch client is handed *)
Module ServiceExtra.
Import Watch Service.

(** Whatever the watcher found, the response carries at least one event,
    hence a cursor to go on from.  [Watched] is true exactly when the list
    found is not empty and does not start with the sentinel; when it is
    false there is exactly one event, of the resource asked for, and its
    cursor is the start cursor, or the sentinel when there is none. *)
Theorem generateResp_always_a_cursor (NoEventCursor startCursor : string) (rsc : CursorType)
    (events : list WatchEventDetail) :
  let result := Data (generateResp NoEventCursor startCursor rsc events) in
  Events result ≠ [] ∧
  (Watched result = true <-> shows NoEventCursor events) ∧
  (Watched result = false ->
   Events result = [{| Cursor_ := if decide (startCursor = "") then NoEventCursor
                                  else startCursor;
                       Resource := rsc; EventType := ""; Detail := Go.JNull |}]).
Proof.
  simpl. unfold generateResult, shows.
  assert (Hlen : (String.length startCursor =? 0)%nat
                 = if decide (startCursor = "") then true else false).
  { destruct (decide (startCursor = "")) as [->|Hne]; [reflexivity|].
    destruct startCursor; [contradiction|reflexivity]. }
  destruct events as [|first rest].
  - rewrite Hlen. destruct (decide (startCursor = "")); simpl;
      (split; [discriminate|]; split; [|reflexivity]);
      (split; [discriminate|]); intros (f & r & H & _); discriminate.
  - destruct (String.eqb_spec (Cursor_ first) NoEventCursor) as [Heq|Hne].
    + rewrite Hlen. destruct (decide (startCursor = "")); simpl;
        (split; [discriminate|]; split; [|reflexivity]);
        (split; [discriminate|]); intros (f & r & H & Hf); injection H as <- <-;
        contradiction.
    + simpl. split; [discriminate|]. split; [|discriminate].
      split; [|reflexivity]. intros _. by exists first, rest.
Qed.

(** With nothing to show the result is the single event that carries the
    start cursor, or the sentinel when there is none. *)
Lemma generateResult_idle (noEvent startCursor : string) (rsc : CursorType)
    (events : list WatchEventDetail) :
  ¬ shows noEvent events ->
  generateResult noEvent startCursor rsc events
  = {| Watched := false;
       Events := [{| Cursor_ := if decide (startCursor = "") then noEvent else startCursor;
                     Resource := rsc; EventType := ""; Detail := Go.JNull |}] |}.
Proof.
  intros Hidle. unfold generateResult.
  assert (Hlen : (String.length startCursor =? 0)%nat
                 = if decide (startCursor = "") then true else false).
  { destruct (decide (startCursor = "")) as [->|Hne]; [reflexivity|].
    destruct startCursor; [contradiction|reflexivity]. }
  destruct events as [|first rest].
  - rewrite Hlen. by destruct (decide (startCursor = "")).
  - destruct (String.eqb_spec (Cursor_ first) noEvent) as [Heq|Hne].
    + rewrite Hlen. by destruct (decide (startCursor = "")).
    + exfalso. apply Hidle. by exists first, rest.
Qed.

Lemma generateResult_nonempty (noEvent startCursor : string) (rsc : CursorType)
    (events : list WatchEventDetail) :
  Events (generateResult noEvent startCursor rsc events) ≠ [].
Proof.
  unfold generateResult.
  destruct events as [|first rest]; [by destruct (String.length startCursor =? 0)%nat|].
  destruct (String.eqb (Cursor_ first) noEvent);
    [by destruct (String.length startCursor =? 0)%nat|discriminate].
Qed.

End ServiceExtra.

(** ** service/watch.go: the watch request handler *)
Module WatchAPISpec.
Import WatchAPI.

Section WatchEvent.

Variable NoEventCursor : string.
Variable Key : Type.
Variable Validate : WatchEventOptions -> option Go.error.
Variable GetResourceKeyWithCursorType : Watch.CursorType -> Go.result Key.
Variable WatchWithCursor :
  Key -> WatchEventOptions -> string -> Go.result (list Watch.WatchEventDetail).
Variable WatchWithStartFrom :
  Key -> WatchEventOptions -> string -> Go.result (list Watch.WatchEventDetail).
Variable WatchFromNow : Key -> WatchEventOptions -> string -> Go.result Watch.WatchEventDetail.

Local Abbreviation WatchEvent :=
  (WatchEvent NoEventCursor Key Validate GetResourceKeyWithCursorType WatchWithCursor
     WatchWithStartFrom WatchFromNow).

(** Cursor echo.  A request that carries a cursor and whose watch finds
    nothing to show (no event, or a list that starts with the sentinel) is
    answered with [Watched] false and the single event that carries the
    request's own cursor and the resource of the path, so that the client
    can ask again from the same place. *)
Theorem WatchEvent_echoes_cursor (resource rid : string) (decoded : WatchEventOptions)
    (key : Key) (events : list Watch.WatchEventDetail) :
  Validate (withResource resource decoded) = None ->
  GetResourceKeyWithCursorType resource = Go.Ok key ->
  Cursor decoded ≠ "" ->
  WatchWithCursor key (withResource resource decoded) rid = Go.Ok events ->
  ¬ Service.shows NoEventCursor events ->
  WatchEvent resource (Go.Ok decoded) rid
  = WriteEntity
      (Service.NewSuccessResp
         {| Watch.Watched := false;
            Watch.Events := [{| Watch.Cursor_ := Cursor decoded; Watch.Resource := resource;
                                Watch.EventType := ""; Watch.Detail := Go.JNull |}] |}).
Proof.
  intros Hv Hk Hc Hw Hidle. unfold WatchAPI.WatchEvent. rewrite Hv. simpl.
  rewrite Hk. destruct (Cursor decoded) as [|a cur] eqn:Ec; [contradiction|]. simpl.
  rewrite Hw. unfold Service.generateResp.
  rewrite (ServiceExtra.generateResult_idle _ _ _ _ Hidle). reflexivity.
Qed.

(** Whatever is written as an entity is a success envelope with at least
    one event in it: a client that is not told of an error is always given
    a cursor. *)
Theorem WatchEvent_entity_has_events (resource rid : string)
    (body : Go.result WatchEventOptions) (value : Service.Response) :
  WatchEvent resource body rid = WriteEntity value ->
  Service.Result value = true ∧ Watch.Events (Service.Data value) ≠ [].
Proof.
  unfold WatchAPI.WatchEvent. intros H.
  repeat match type of H with
         | match ?x with _ => _ end = _ => destruct x; try discriminate
         | (if ?b then _ else _) = _ => destruct b; try discriminate
         end;
    injection H as <-; (split; [reflexivity|apply ServiceExtra.generateResult_nonempty]).
Qed.

End WatchEvent.

(** A client resumes from "c1" on the host resource and nothing is new. *)
Lemma WatchEvent_echoes_cursor_witness :
  WatchEvent "no-event" string Sample.validate Sample.resourceKey Sample.nothingNew
    Sample.oneSince Sample.nothingYet Watch.Host (Go.Ok (Sample.resumeFrom "c1")) "rid-1"
  = WriteEntity
      (Service.NewSuccessResp
         {| Watch.Watched := false;
            Watch.Events := [{| Watch.Cursor_ := "c1"; Watch.Resource := Watch.Host;
                                Watch.EventType := ""; Watch.Detail := Go.JNull |}] |}).
Proof.
  apply (WatchEvent_echoes_cursor "no-event" string Sample.validate Sample.resourceKey
           Sample.nothingNew Sample.oneSince Sample.nothingYet Watch.Host "rid-1"
           (Sample.resumeFrom "c1") Watch.Host []).
  - reflexivity.
  - reflexivity.
  - discriminate.
  - reflexivity.
  - intros (first & rest & H & _). discriminate.
Defined.

(** A client asks from the second 150 and is given the created host. *)
Lemma WatchEvent_entity_has_events_witness :
  Service.Result
    (Service.generateResp "no-event" "" Watch.Host [Sample.hostCreated]) = true ∧
  Watch.Events
    (Service.Data (Service.generateResp "no-event" "" Watch.Host [Sample.hostCreated])) ≠ [].
Proof.
  apply (WatchEvent_entity_has_events "no-event" string Sample.validate Sample.resourceKey
           Sample.nothingNew Sample.oneSince Sample.nothingYet Watch.Host "rid-2"
           (Go.Ok {| Resource := ""; Cursor := ""; StartFrom := 150; EventTypes := [] |})).
  reflexivity.
Defined.

End WatchAPISpec.

(** ** distributer.go: the registry handlers and the index *)
Module RegistryExtra.
Import Metadata Distribution.

Lemma elem_of_updated (subid x : Z) (ids : list Z) :
  x ∈ updated subid ids <-> x ≠ subid ∧ x ∈ ids.
Proof.
  induction ids as [|id ids IH]; simpl.
  - split; [intros H; by apply not_elem_of_nil in H|].
    intros [_ H]. by apply not_elem_of_nil in H.
  - destruct (Z.eqb_spec subid id) as [->|Hne].
    + rewrite IH, elem_of_cons. split; [intros [H1 H2]; auto|].
      intros [H1 [H2|H2]]; [contradiction|auto].
    + rewrite !elem_of_cons, IH. split.
      * intros [->|[H1 H2]]; [split; [congruence|by left]|auto].
      * intros [H1 [H2|H2]]; auto.
Qed.

Lemma updated_app (subid : Z) (a b : list Z) :
  updated subid (a ++ b) = updated subid a ++ updated subid b.
Proof.
  induction a as [|x a IH]; simpl; [reflexivity|].
  destruct (Z.eqb subid x); [exact IH|]. simpl. by rewrite IH.
Qed.

Lemma bucket_add (o e : string) (subid : Z) (subs : gmap string (list Z)) (k : string) :
  bucket k (addSubscriber o e subid subs)
  = if decide (k = subscriberKey o e)
    then if decide (subid ∈ bucket k subs) then bucket k subs else bucket k subs ++ [subid]
    else bucket k subs.
Proof.
  unfold addSubscriber. destruct (decide (k = subscriberKey o e)) as [->|Hne].
  - destruct (alreadyExist subid (bucket (subscriberKey o e) subs)) eqn:E.
    + apply RegistrySpec.alreadyExist_spec in E. by rewrite decide_True.
    + rewrite RegistrySpec.bucket_insert. rewrite decide_False; [reflexivity|].
      intros H. apply RegistrySpec.alreadyExist_spec in H. congruence.
  - destruct (alreadyExist subid (bucket (subscriberKey o e) subs)); [reflexivity|].
    by rewrite RegistrySpec.bucket_insert_ne.
Qed.

Lemma bucket_rem (o e : string) (subid : Z) (subs : gmap string (list Z)) (k : string) :
  bucket k (remSubscriber o e subid subs)
  = if decide (k = subscriberKey o e) then updated subid (bucket k subs) else bucket k subs.
Proof.
  unfold remSubscriber. destruct (decide (k = subscriberKey o e)) as [->|Hne].
  - by rewrite RegistrySpec.bucket_insert.
  - by rewrite RegistrySpec.bucket_insert_ne.
Qed.

(** The loop of [remSubscriber] keeps the ids that differ from the one to
    remove, each as often as it was there and in the order they had. *)
Lemma updated_filter (subid : Z) (ids : list Z) :
  updated subid ids = filter (fun x => x ≠ subid) ids.
Proof.
  induction ids as [|id ids IH]; simpl; [reflexivity|].
  destruct (Z.eqb_spec subid id) as [->|Hne].
  - rewrite filter_cons_False by (intros H; by apply H). exact IH.
  - rewrite filter_cons_True by congruence. by rewrite IH.
Qed.

(** Lookup after insert and after removal.  After [addSubscriber] the
    list of subscribers found for the owner and event type is the list
    found before when the id was in it, and otherwise that list with the id
    appended once at its end; after [remSubscriber] it is the list found
    before without the occurrences of the id, the other ids as often and in
    the order they were.  So the ids found after an insert are the id and
    the ones before, the list before is a prefix of the list after, and the
    ids found after a removal are the ones before that differ from the id.
    The subscribers of every other key of the index are the same after
    either call. *)
Theorem index_lookup_after_update (o e : string) (subid : Z) (subs : gmap string (list Z)) :
  findSubscribers o e (addSubscriber o e subid subs)
  = (if decide (subid ∈ findSubscribers o e subs)
     then findSubscribers o e subs
     else findSubscribers o e subs ++ [subid]) ∧
  findSubscribers o e (remSubscriber o e subid subs)
  = filter (fun x => x ≠ subid) (findSubscribers o e subs) ∧
  (forall x, x ∈ findSubscribers o e (addSubscriber o e subid subs)
             <-> x = subid ∨ x ∈ findSubscribers o e subs) ∧
  findSubscribers o e subs `prefix_of` findSubscribers o e (addSubscriber o e subid subs) ∧
  (forall x, x ∈ findSubscribers o e (remSubscriber o e subid subs)
             <-> x ≠ subid ∧ x ∈ findSubscribers o e subs) ∧
  (forall k, k ≠ subscriberKey o e ->
             bucket k (addSubscriber o e subid subs) = bucket k subs ∧
             bucket k (remSubscriber o e subid subs) = bucket k subs).
Proof.
  unfold findSubscribers. fold (subscriberKey o e).
  split; [|split; [|split; [|split; [|split]]]].
  - by rewrite bucket_add, decide_True.
  - by rewrite bucket_rem, decide_True, updated_filter.
  - intros x. rewrite bucket_add, decide_True by reflexivity.
    destruct (decide (subid ∈ bucket (subscriberKey o e) subs)) as [Hin|Hout].
    + split; [by right|]. intros [->|H]; assumption.
    + rewrite elem_of_app, list_elem_of_singleton. tauto.
  - rewrite bucket_add, decide_True by reflexivity.
    destruct (decide (subid ∈ bucket (subscriberKey o e) subs)); [reflexivity|].
    by apply prefix_app_r.
  - intros x. rewrite bucket_rem, decide_True by reflexivity. apply elem_of_updated.
  - intros k Hne. by rewrite bucket_add, bucket_rem, !decide_False.
Qed.

(** Subscription 9 joins the bucket of 8 and 7 at its end, joining again
    changes nothing, and 8 leaves a bucket in which it stands twice; the
    bucket next to it stays as it is. *)
Lemma index_lookup_after_update_witness :
  findSubscribers "0" "hostcreate" (addSubscriber "0" "hostcreate" 9 {[ "0:hostcreate" := [8; 7] ]})
  = [8; 7; 9] ∧
  findSubscribers "0" "hostcreate"
    (addSubscriber "0" "hostcreate" 9 {[ "0:hostcreate" := [8; 9; 7] ]})
  = [8; 9; 7] ∧
  findSubscribers "0" "hostcreate"
    (remSubscriber "0" "hostcreate" 8 {[ "0:hostcreate" := [8; 9; 8; 7] ]})
  = [9; 7] ∧
  bucket "0:hostupdate" (addSubscriber "0" "hostcreate" 9 {[ "0:hostupdate" := [8] ]})
  = bucket "0:hostupdate" {[ "0:hostupdate" := [8] ]}.
Proof.
  split; [|split; [|split]].
  - exact (proj1 (index_lookup_after_update "0" "hostcreate" 9 {[ "0:hostcreate" := [8; 7] ]})).
  - exact (proj1 (index_lookup_after_update "0" "hostcreate" 9
                    {[ "0:hostcreate" := [8; 9; 7] ]})).
  - exact (proj1 (proj2 (index_lookup_after_update "0" "hostcreate" 8
                           {[ "0:hostcreate" := [8; 9; 8; 7] ]}))).
  - refine (proj1 (proj2 (proj2 (proj2 (proj2 (proj2
              (index_lookup_after_update "0" "hostcreate" 9 {[ "0:hostupdate" := [8] ]})))))
              "0:hostupdate" _)).
    discriminate.
Defined.




Section Handlers.

Variable GetCacheKey : Subscription -> string.




Lemma adds_keep (o : string) (subid x : Z) (k : string) (l : list string) :
  forall subs : gmap string (list Z),
    x ∈ bucket k subs ->
    x ∈ bucket k (foldl invoke subs (map (fun t => CallAddSubscriber o t subid) l)).
Proof.
  induction l as [|t l IH]; intros subs H; simpl; [exact H|].
  apply IH. rewrite bucket_add. destruct (decide (k = subscriberKey o t)); [|exact H].
  destruct (decide (subid ∈ bucket k subs)); [exact H|].
  apply elem_of_app. by left.
Qed.

Lemma adds_member (o : string) (subid : Z) (l : list string) (t : string) :
  t ∈ l ->
  forall subs : gmap string (list Z),
    subid ∈ bucket (subscriberKey o t)
              (foldl invoke subs (map (fun t => CallAddSubscriber o t subid) l)).
Proof.
  induction l as [|t' l IH]; intros Hin subs; [by apply not_elem_of_nil in Hin|].
  simpl. apply elem_of_cons in Hin as [->|Hin]; [|by apply IH].
  apply adds_keep. rewrite bucket_add, decide_True by reflexivity.
  destruct (decide (subid ∈ bucket (subscriberKey o t') subs)) as [H|H]; [exact H|].
  apply elem_of_app. right. by apply list_elem_of_singleton.
Qed.

(** A subscription whose id is not registered yet is stored, and its id is
    then found under its owner for every event type that its form names
    between commas. *)
Theorem onUpsert_registers_new (sub : Subscription) (d : Distributer) :
  subscriptions d !! SubscriptionID sub = None ->
  let d' := fst (onUpsertSubscriptions GetCacheKey sub d) in
  subscriptions d' !! SubscriptionID sub = Some sub ∧
  forall eventType, eventType ∈ Go.Split "," (SubscriptionForm sub) ->
    SubscriptionID sub ∈ findSubscribers (OwnerID sub) eventType (subscribers d').
Proof.
  intros Hnew. simpl. unfold onUpsertSubscriptions. rewrite Hnew. simpl.
  split; [apply lookup_insert_eq|].
  intros eventType Hin. unfold findSubscribers. fold (subscriberKey (OwnerID sub) eventType).
  by apply adds_member.
Qed.

Lemma adds_erased (o : string) (subid : Z) (k : string) (l : list string) :
  forall subs : gmap string (list Z),
    updated subid (bucket k (foldl invoke subs (map (fun t => CallAddSubscriber o t subid) l)))
    = updated subid (bucket k subs).
Proof.
  induction l as [|t l IH]; intros subs; simpl; [reflexivity|].
  rewrite IH, bucket_add. destruct (decide (k = subscriberKey o t)); [|reflexivity].
  destruct (decide (subid ∈ bucket k subs)); [reflexivity|].
  rewrite updated_app. simpl. rewrite Z.eqb_refl. apply app_nil_r.
Qed.

Lemma adds_frame (o : string) (subid : Z) (k : string) (l : list string) :
  k ∉ map (subscriberKey o) l ->
  forall subs : gmap string (list Z),
    bucket k (foldl invoke subs (map (fun t => CallAddSubscriber o t subid) l)) = bucket k subs.
Proof.
  induction l as [|t l IH]; intros Hk subs; simpl; [reflexivity|].
  simpl in Hk. apply not_elem_of_cons in Hk as [Hne Hk].
  rewrite IH by exact Hk. by rewrite bucket_add, decide_False.
Qed.

Lemma rems_bucket (o : string) (subid : Z) (k : string) (l : list string) :
  forall subs : gmap string (list Z),
    bucket k (foldl invoke subs (map (fun t => CallRemSubscriber o t subid) l))
    = if decide (k ∈ map (subscriberKey o) l) then updated subid (bucket k subs)
      else bucket k subs.
Proof.
  induction l as [|t l IH]; intros subs.
  - simpl. destruct (decide (k ∈ [])) as [H|_]; [|reflexivity].
    by apply not_elem_of_nil in H.
  - change (foldl invoke subs (map (fun t => CallRemSubscriber o t subid) (t :: l)))
      with (foldl invoke (remSubscriber o t subid subs)
              (map (fun t => CallRemSubscriber o t subid) l)).
    change (map (subscriberKey o) (t :: l))
      with (subscriberKey o t :: map (subscriberKey o) l).
    rewrite IH, bucket_rem.
    destruct (decide (k = subscriberKey o t)) as [->|Hne].
    + rewrite (RegistrySpec.updated_absent subid (updated subid _))
        by apply RegistrySpec.updated_removes.
      destruct (decide (subscriberKey o t ∈ map (subscriberKey o) l));
        destruct (decide (subscriberKey o t ∈ subscriberKey o t :: map (subscriberKey o) l))
          as [|Hn]; try reflexivity; exfalso; apply Hn, elem_of_cons; by left.
    + destruct (decide (k ∈ map (subscriberKey o) l)) as [Hin|Hout];
        destruct (decide (k ∈ subscriberKey o t :: map (subscriberKey o) l)) as [Hin'|Hout'];
        try reflexivity; exfalso.
      * apply Hout', elem_of_cons. by right.
      * apply elem_of_cons in Hin' as [?|?]; contradiction.
Qed.

(** Round trip.  When a subscription whose id is neither registered nor in
    any bucket is upserted and then deleted, no document is left for it and
    every bucket holds the ids it held before, in the same order. *)
Theorem upsert_then_delete_restores (sub : Subscription) (d : Distributer) :
  subscriptions d !! SubscriptionID sub = None ->
  (forall k, SubscriptionID sub ∉ bucket k (subscribers d)) ->
  let d' := fst (onDeleteSubscriptions sub (fst (onUpsertSubscriptions GetCacheKey sub d))) in
  subscriptions d' = subscriptions d ∧
  forall k, bucket k (subscribers d') = bucket k (subscribers d).
Proof.
  intros Hnew Hout. simpl. unfold onUpsertSubscriptions. rewrite Hnew. simpl.
  rewrite lookup_insert_eq. split; [by apply delete_insert_id|].
  intros k. rewrite rems_bucket.
  destruct (decide (k ∈ map (subscriberKey (OwnerID sub))
                        (Go.Split "," (SubscriptionForm sub)))) as [Hin|Hnot].
  - rewrite adds_erased. apply RegistrySpec.updated_absent, Hout.
  - by apply adds_frame.
Qed.

End Handlers.


(** Subscription 7 is registered in an empty distributer. *)
Lemma onUpsert_registers_new_witness :
  subscriptions (fst (onUpsertSubscriptions CallbackURL Sample.storedSubscription
                        NewDistributer)) !! 7
  = Some Sample.storedSubscription.
Proof.
  refine (proj1 (onUpsert_registers_new CallbackURL Sample.storedSubscription
                   NewDistributer _)).
  reflexivity.
Defined.

(** Subscription 7 is registered in an empty distributer, and deleted. *)
Lemma upsert_then_delete_restores_witness :
  subscriptions
    (fst (onDeleteSubscriptions Sample.storedSubscription
            (fst (onUpsertSubscriptions CallbackURL Sample.storedSubscription
                    NewDistributer))))
  = subscriptions NewDistributer.
Proof.
  refine (proj1 (upsert_then_delete_restores CallbackURL Sample.storedSubscription
                   NewDistributer _ _)).
  - reflexivity.
  - intros k. unfold bucket. simpl. rewrite lookup_empty. apply not_elem_of_nil.
Defined.

End RegistryExtra.

(** ** distributer.go: the cursor tracker, across calls and on bad input *)
Module CursorExtra.
Import Distribution.


Lemma updateOldest_not_newer (ct : Watch.CursorType) (x c0 : Watch.Cursor)
    (rc : gmap Watch.CursorType Watch.Cursor) :
  rc !! ct = Some c0 ->
  exists c, updateOldest ct x rc !! ct = Some c ∧
            Watch.Sec (Watch.ClusterTime c) <= Watch.Sec (Watch.ClusterTime c0).
Proof.
  intros H. unfold updateOldest. rewrite H.
  destruct (Z.ltb_spec (Watch.Sec (Watch.ClusterTime x)) (Watch.Sec (Watch.ClusterTime c0))).
  - exists x. rewrite lookup_insert_eq. split; [reflexivity|lia].
  - exists c0. split; [exact H|lia].
Qed.

Section ResourceCursor.

Variable ParseCursorTypeFromEventType : string -> Watch.CursorType.
Variable Decode : string -> option Watch.Cursor.

Local Abbreviation rangeSubscribers := (rangeSubscribers Decode).
Local Abbreviation rangeBuckets := (rangeBuckets ParseCursorTypeFromEventType Decode).
Local Abbreviation getResourceCursor :=
  (getResourceCursor ParseCursorTypeFromEventType Decode).
Local Abbreviation bucketOf := (bucketOf ParseCursorTypeFromEventType).
Local Abbreviation readable := (readable Decode).




Lemma rangeSubscribers_not_newer (ct : Watch.CursorType) (k : string) (cache : Redis.Cache)
    (v : list Z) :
  forall (rc : gmap Watch.CursorType Watch.Cursor) (c0 : Watch.Cursor),
    rc !! ct = Some c0 ->
    exists c, fst (rangeSubscribers ct k cache v rc) !! ct = Some c ∧
              Watch.Sec (Watch.ClusterTime c) <= Watch.Sec (Watch.ClusterTime c0).
Proof.
  induction v as [|subid v IH]; intros rc c0 Hrc; simpl.
  - exists c0. split; [exact Hrc|lia].
  - destruct (Redis.Get (subscriberCursorKey k subid) cache) as [val [err|]].
    + exists c0. split; [exact Hrc|lia].
    + destruct (negb (String.length val =? 0)%nat); [|by apply IH].
      destruct (Decode val) as [x|].
      * destruct (updateOldest_not_newer ct x c0 rc Hrc) as (c1 & H1 & Hle1).
        destruct (IH _ _ H1) as (c & Hc & Hle). exists c. split; [exact Hc|lia].
      * exists c0. split; [exact Hrc|lia].
Qed.

Lemma rangeBuckets_not_newer (ct : Watch.CursorType) (cache : Redis.Cache)
    (kvs : list (string * list Z)) :
  forall (rc : gmap Watch.CursorType Watch.Cursor) (c0 : Watch.Cursor),
    rc !! ct = Some c0 ->
    exists c, fst (rangeBuckets ct cache kvs rc) !! ct = Some c ∧
              Watch.Sec (Watch.ClusterTime c) <= Watch.Sec (Watch.ClusterTime c0).
Proof.
  induction kvs as [|[k v] kvs IH]; intros rc c0 Hrc; simpl.
  - exists c0. split; [exact Hrc|lia].
  - destruct (Go.Split ":" k) as [|a [|e [|x rest]]];
      try (exists c0; split; [exact Hrc|lia]).
    destruct (negb (String.eqb (ParseCursorTypeFromEventType e) ct)); [by apply IH|].
    destruct (rangeSubscribers_not_newer ct k cache v rc c0 Hrc) as (c1 & H1 & Hle1).
    destruct (rangeSubscribers ct k cache v rc) as [rc' [err|]]; simpl in *.
    + exists c1. split; [exact H1|lia].
    + destruct (IH _ _ H1) as (c & Hc & Hle). exists c. split; [exact Hc|lia].
Qed.

(** The oldest cursor is kept across calls and never moves forward.  When
    the distributer already stores a cursor for the type, it stores one
    after the call, whose [ClusterTime.Sec] is not above the stored one's,
    whatever the subscribers and the cache are by now; the call returns
    this cursor, or fails. *)
Theorem getResourceCursor_never_moves_forward (ct : Watch.CursorType)
    (kvs : list (string * list Z)) (cache : Redis.Cache) (d : Distributer)
    (c0 : Watch.Cursor) :
  resourceCursors d !! ct = Some c0 ->
  exists c,
    resourceCursors (fst (getResourceCursor ct kvs cache d)) !! ct = Some c ∧
    Watch.Sec (Watch.ClusterTime c) <= Watch.Sec (Watch.ClusterTime c0) ∧
    (snd (getResourceCursor ct kvs cache d) = (Some c, None) ∨
     exists err, snd (getResourceCursor ct kvs cache d) = (None, Some err)).
Proof.
  intros Hrc. unfold Distribution.getResourceCursor.
  destruct (rangeBuckets_not_newer ct cache kvs _ _ Hrc) as (c & Hc & Hle).
  destruct (rangeBuckets ct cache kvs (resourceCursors d)) as [rc [err|]]; simpl in *;
    exists c; (split; [exact Hc|]); (split; [exact Hle|]).
  - right. by exists err.
  - left. by rewrite Hc.
Qed.

Lemma rangeSubscribers_unreadable (ct : Watch.CursorType) (k : string) (cache : Redis.Cache)
    (v : list Z) (subid : Z) :
  subid ∈ v -> readable cache k subid = false ->
  forall rc : gmap Watch.CursorType Watch.Cursor,
    snd (rangeSubscribers ct k cache v rc) ≠ None.
Proof.
  intros Hin Hbad. induction v as [|s v IH]; intros rc; [by apply not_elem_of_nil in Hin|].
  simpl. unfold Redis.Get.
  destruct (decide (s = subid)) as [->|Hne].
  - unfold Distribution.readable in Hbad.
    destruct (Redis.strings cache !! subscriberCursorKey k subid) as [val|]; [|discriminate].
    destruct (String.length val =? 0)%nat; [discriminate|]. simpl in *.
    destruct (Decode val); discriminate.
  - apply elem_of_cons in Hin as [->|Hin]; [contradiction|].
    destruct (Redis.strings cache !! subscriberCursorKey k s) as [val|]; [|discriminate].
    destruct (negb (String.length val =? 0)%nat); [|by apply IH].
    destruct (Decode val); [by apply IH|discriminate].
Qed.

(** What makes an entry of the subscribers map fatal for a call: its key
    does not split in two at ":", or it belongs to the cursor type and
    lists a subscriber whose cursor the cache does not hold, or holds as a
    value that is not empty and does not decode. *)
Lemma rangeBuckets_fatal (ct : Watch.CursorType) (cache : Redis.Cache)
    (kvs : list (string * list Z)) (k : string) (v : list Z) :
  (k, v) ∈ kvs ->
  length (Go.Split ":" k) ≠ 2%nat ∨
  (bucketOf ct k = true ∧ exists subid, subid ∈ v ∧ readable cache k subid = false) ->
  forall rc : gmap Watch.CursorType Watch.Cursor,
    snd (rangeBuckets ct cache kvs rc) ≠ None.
Proof.
  intros Hin Hbad. induction kvs as [|[k' v'] kvs IH]; intros rc;
    [by apply not_elem_of_nil in Hin|].
  simpl. apply elem_of_cons in Hin as [Heq|Hin].
  - injection Heq as <- <-. unfold Distribution.bucketOf in Hbad.
    destruct (Go.Split ":" k) as [|a [|e [|x rest]]]; try discriminate.
    destruct Hbad as [Hlen|[Hof (subid & Hsub & Hunread)]]; [by contradiction Hlen|].
    rewrite Hof. simpl.
    pose proof (rangeSubscribers_unreadable ct k cache v subid Hsub Hunread rc) as H.
    by destruct (rangeSubscribers ct k cache v rc) as [rc' [err|]].
  - destruct (Go.Split ":" k') as [|a [|e [|x rest]]]; try discriminate.
    destruct (negb (String.eqb (ParseCursorTypeFromEventType e) ct)); [by apply IH|].
    destruct (rangeSubscribers ct k' cache v' rc) as [rc' [err|]]; [discriminate|by apply IH].
Qed.

(** One subscribers key that does not read owner:eventType, for instance
    because the owner id holds a colon, makes [getResourceCursor] fail for
    every cursor type and in every order of ranging: it answers nil and an
    error. *)
Theorem getResourceCursor_invalid_key_fails (ct : Watch.CursorType)
    (kvs : list (string * list Z)) (cache : Redis.Cache) (d : Distributer)
    (k : string) (v : list Z) :
  rangeOrder d kvs ->
  subscribers d !! k = Some v ->
  length (Go.Split ":" k) ≠ 2%nat ->
  exists err, snd (getResourceCursor ct kvs cache d) = (None, Some err).
Proof.
  intros Hperm Hk Hlen. unfold Distribution.getResourceCursor.
  assert (Hin : (k, v) ∈ kvs).
  { unfold rangeOrder in Hperm. rewrite Hperm. by apply elem_of_map_to_list. }
  pose proof (rangeBuckets_fatal ct cache kvs k v Hin (or_introl Hlen) (resourceCursors d)) as H.
  destruct (rangeBuckets ct cache kvs (resourceCursors d)) as [rc [err|]]; simpl in *;
    [by exists err|contradiction].
Qed.

(** One subscriber of the cursor type whose cursor the cache does not
    hold, or holds as a value that is not empty and does not decode, makes
    [getResourceCursor] fail in every order of ranging, whatever the other
    subscribers have persisted. *)
Theorem getResourceCursor_unreadable_fails (ct : Watch.CursorType)
    (kvs : list (string * list Z)) (cache : Redis.Cache) (d : Distributer)
    (k : string) (v : list Z) (subid : Z) :
  rangeOrder d kvs ->
  subscribers d !! k = Some v ->
  bucketOf ct k = true ->
  subid ∈ v ->
  readable cache k subid = false ->
  exists err, snd (getResourceCursor ct kvs cache d) = (None, Some err).
Proof.
  intros Hperm Hk Hof Hsub Hunread. unfold Distribution.getResourceCursor.
  assert (Hin : (k, v) ∈ kvs).
  { unfold rangeOrder in Hperm. rewrite Hperm. by apply elem_of_map_to_list. }
  assert (Hbad : length (Go.Split ":" k) ≠ 2%nat ∨
                 (bucketOf ct k = true ∧
                  exists subid, subid ∈ v ∧ readable cache k subid = false)).
  { right. split; [exact Hof|]. by exists subid. }
  pose proof (rangeBuckets_fatal ct cache kvs k v Hin Hbad (resourceCursors d)) as H.
  destruct (rangeBuckets ct cache kvs (resourceCursors d)) as [rc [err|]]; simpl in *;
    [by exists err|contradiction].
Qed.

End ResourceCursor.


(** The second 3 is stored, and the subscribers are at the seconds 5 and 3. *)
Lemma getResourceCursor_never_moves_forward_witness :
  exists c,
    resourceCursors
      (fst (getResourceCursor Sample.parseCursorType Sample.decode Watch.Host
              (map_to_list (subscribers Sample.alreadyTracked)) Sample.bothPersisted
              Sample.alreadyTracked)) !! Watch.Host = Some c ∧
    Watch.Sec (Watch.ClusterTime c) <= 3.
Proof.
  destruct (getResourceCursor_never_moves_forward Sample.parseCursorType Sample.decode
              Watch.Host (map_to_list (subscribers Sample.alreadyTracked))
              Sample.bothPersisted Sample.alreadyTracked _ eq_refl) as (c & Hc & Hle & _).
  exists c. split; [exact Hc|exact Hle].
Defined.

(** The key of the owner "a:b" splits in three. *)
Lemma getResourceCursor_invalid_key_fails_witness :
  exists err,
    snd (getResourceCursor Sample.parseCursorType Sample.decode Watch.ObjectBase
           (map_to_list (subscribers Sample.colonOwner)) Redis.empty Sample.colonOwner)
    = (None, Some err).
Proof.
  apply (getResourceCursor_invalid_key_fails Sample.parseCursorType Sample.decode
           Watch.ObjectBase (map_to_list (subscribers Sample.colonOwner)) Redis.empty
           Sample.colonOwner "a:b:hostcreate" [7]).
  - unfold rangeOrder. reflexivity.
  - reflexivity.
  - vm_compute. discriminate.
Defined.

(** Subscription 7 has no cursor in the cache, subscription 8 has. *)
Lemma getResourceCursor_unreadable_fails_witness :
  exists err,
    snd (getResourceCursor Sample.parseCursorType Sample.decode Watch.Host
           (map_to_list (subscribers Sample.twoSubscribers)) Sample.onePersisted
           Sample.twoSubscribers)
    = (None, Some err).
Proof.
  apply (getResourceCursor_unreadable_fails Sample.parseCursorType Sample.decode
           Watch.Host (map_to_list (subscribers Sample.twoSubscribers)) Sample.onePersisted
           Sample.twoSubscribers "0:hostcreate" [7; 8] 7).
  - unfold rangeOrder. reflexivity.
  - reflexivity.
  - reflexivity.
  - apply elem_of_cons. by left.
  - reflexivity.
Defined.

End CursorExtra.

(** ** event.go: the sender, on every path *)
Module SenderExtra.
Import Metadata Distribution Sender.

Lemma HIncrBy_frame (key field : string) (n : Z) (c : Redis.Cache) :
  Redis.strings (Redis.HIncrBy key field n c) = Redis.strings c ∧
  Redis.lists (Redis.HIncrBy key field n c) = Redis.lists c.
Proof. unfold Redis.HIncrBy. by case_bool_decide. Qed.

Lemma modes_differ : ConfirmModeHTTPStatus ≠ ConfirmModeRegular.
Proof. discriminate. Qed.

Section Send.

Variable json_Marshal : DistInst -> Go.result string.
Variable json_Unmarshal : string -> Go.result DistInst.
Variable url_Parse : string -> option Go.error.
Variable DoWithTimeout : Z -> Request -> Go.result HTTPResponse.
Variable Regexp : Type.
Variable regexp_Compile : string -> Go.result Regexp.
Variable regexp_Match : Regexp -> string -> bool.

Local Abbreviation send := (send json_Marshal url_Parse DoWithTimeout Regexp regexp_Compile regexp_Match).
Local Abbreviation sendBody :=
  (sendBody json_Marshal url_Parse DoWithTimeout Regexp regexp_Compile regexp_Match).
Local Abbreviation runIteration :=
  (runIteration json_Marshal json_Unmarshal url_Parse DoWithTimeout Regexp regexp_Compile
     regexp_Match).
Local Abbreviation answered := (answered json_Marshal url_Parse DoWithTimeout).
Local Abbreviation confirms := (confirms Regexp regexp_Compile regexp_Match).

(** [send] returns nil exactly when the callback answered and the
    confirmation holds; a confirm mode that is neither http-status nor
    regular confirms every answer. *)
Theorem send_succeeds_iff_confirmed (subid : Z) (d : Distributer) (dist : DistInst)
    (w : World) (subscription : Subscription) :
  FindSubscription subid d = Some subscription ->
  (snd (send subid d dist w) = None <->
   exists req resp respData,
     answered subscription dist = Some (req, resp, respData) ∧
     confirms subscription resp respData).
Proof.
  intros Hfind. unfold Sender.send, Sender.sendBody, Sender.answered, Sender.confirms.
  rewrite Hfind.
  destruct (json_Marshal dist) as [distData|e]; simpl;
    [|split; [discriminate|intros (?&?&?&?&_); discriminate]].
  destruct (url_Parse (CallbackURL subscription)) as [e|]; simpl;
    [split; [discriminate|intros (?&?&?&?&_); discriminate]|].
  destruct (DoWithTimeout _ _) as [resp|e]; simpl;
    [|split; [discriminate|intros (?&?&?&?&_); discriminate]].
  destruct (Body resp) as [respData|e] eqn:Eb; simpl;
    [|split; [discriminate|intros (?&?&?&?&_); discriminate]].
  destruct (String.eqb_spec (ConfirmMode subscription) ConfirmModeHTTPStatus) as [Hm|Hm].
  - destruct (String.eqb_spec (Go.Itoa (StatusCode resp)) (ConfirmPattern subscription))
      as [Hp|Hp]; simpl.
    + split; [|reflexivity]. intros _. eexists _, _, _. split; [reflexivity|]. by left.
    + split; [discriminate|]. intros (req & resp' & data' & Heq & Hc).
      injection Heq as _ <- <-. destruct Hc as [[_ H]|[[H _]|[H _]]]; [contradiction| |contradiction].
      rewrite Hm in H. by apply modes_differ in H.
  - destruct (String.eqb_spec (ConfirmMode subscription) ConfirmModeRegular) as [Hr|Hr].
    + destruct (regexp_Compile (ConfirmPattern subscription)) as [pattern|e] eqn:Ec; simpl.
      * destruct (regexp_Match pattern respData) eqn:Em; simpl.
        -- split; [|reflexivity]. intros _. eexists _, _, _. split; [reflexivity|].
           right. left. split; [exact Hr|]. by exists pattern.
        -- split; [discriminate|]. intros (req & resp' & data' & Heq & Hc).
           injection Heq as _ <- <-.
           destruct Hc as [[H _]|[[_ (p & Hp & Hpm)]|[_ H]]]; [contradiction| |contradiction].
           congruence.
      * split; [discriminate|]. intros (req & resp' & data' & Heq & Hc).
        injection Heq as _ <- <-.
        destruct Hc as [[H _]|[[_ (p & Hp & Hpm)]|[_ H]]]; [contradiction| |contradiction].
        congruence.
    + split; [|reflexivity]. intros _. eexists _, _, _. split; [reflexivity|].
      right. right. by split.
Qed.

Lemma failue_counted (subid : Z) (w w2 : World) :
  cache w2 = cache (increaseTotal subid w) ->
  - 2 ^ 63 <= failue subid w + 1 < 2 ^ 63 ->
  failue subid (increaseFailure subid w2) = failue subid w + 1.
Proof.
  intros Hc Hrange. unfold failue, increaseFailure, statIncrease. simpl. rewrite Hc.
  pose proof (SenderSpec.failue_increaseTotal subid subid w) as H. unfold failue in H.
  rewrite SenderSpec.HGet_HIncrBy; rewrite H; [reflexivity|exact Hrange].
Qed.

(** Every failure on the way to the callback's answer (the dist does not
    marshal, the URL does not parse, the round trip fails, the body cannot
    be read) and a pattern that does not compile in regular mode make
    [send] return an error and count one more in [failue]. *)
Theorem send_counts_failure_before_confirmation (subid : Z) (d : Distributer)
    (dist : DistInst) (w : World) (subscription : Subscription) :
  FindSubscription subid d = Some subscription ->
  - 2 ^ 63 <= failue (SubscriptionID subscription) w + 1 < 2 ^ 63 ->
  answered subscription dist = None ∨
  (ConfirmMode subscription = ConfirmModeRegular ∧
   exists err, regexp_Compile (ConfirmPattern subscription) = Go.Err err) ->
  snd (send subid d dist w) ≠ None ∧
  failue (SubscriptionID subscription) (fst (send subid d dist w))
  = failue (SubscriptionID subscription) w + 1.
Proof.
  intros Hfind Hrange Hfail.
  unfold Sender.send, Sender.sendBody, Sender.answered in *. rewrite Hfind.
  destruct (json_Marshal dist) as [distData|e]; simpl;
    [|split; [discriminate|by apply failue_counted]].
  destruct (url_Parse (CallbackURL subscription)) as [e|]; simpl;
    [split; [discriminate|by apply failue_counted]|].
  simpl in Hfail.
  destruct (DoWithTimeout _ _) as [resp|e]; simpl;
    [|split; [discriminate|by apply failue_counted]].
  destruct (Body resp) as [respData|e]; simpl;
    [|split; [discriminate|by apply failue_counted]].
  destruct Hfail as [Hfail|[Hmode (err & Herr)]]; [discriminate|].
  rewrite Hmode, Herr. simpl. split; [discriminate|by apply failue_counted].
Qed.

Lemma sendBody_frame (subscription : Subscription) (dist : DistInst) (w : World) :
  cache (fst (fst (sendBody subscription dist w))) = cache w ∧
  (posts (fst (fst (sendBody subscription dist w))) = posts w ∨
   exists distData, json_Marshal dist = Go.Ok distData ∧
     posts (fst (fst (sendBody subscription dist w)))
     = posts w ++ [callbackRequest subscription distData]).
Proof.
  unfold Sender.sendBody.
  destruct (json_Marshal dist) as [distData|e]; simpl; [|auto].
  destruct (url_Parse (CallbackURL subscription)) as [e|]; simpl; [auto|].
  assert (Hposted : exists distData0, Go.Ok distData = Go.Ok distData0 ∧
            posts w ++ [callbackRequest subscription distData]
            = posts w ++ [callbackRequest subscription distData0]) by eauto.
  repeat (match goal with
          | |- context [match ?x with _ => _ end] => destruct x
          end; simpl; auto).
Qed.

(** [send] acts on the counters of one subscription and on the network,
    and on nothing else: the string keys and the lists of the cache are as
    before, and at most one request goes out, which is the POST of the
    marshalled dist to the callback URL of the stored subscription, under
    the subscription's timeout, or 10 seconds when that is 0.  Without a
    stored subscription nothing changes at all. *)
Theorem send_frame (subid : Z) (d : Distributer) (dist : DistInst) (w : World) :
  let w' := fst (send subid d dist w) in
  Redis.strings (cache w') = Redis.strings (cache w) ∧
  Redis.lists (cache w') = Redis.lists (cache w) ∧
  (FindSubscription subid d = None -> w' = w) ∧
  (posts w' = posts w ∨
   exists subscription distData,
     FindSubscription subid d = Some subscription ∧
     json_Marshal dist = Go.Ok distData ∧
     posts w' = posts w ++ [{| Method := "POST"; URL := CallbackURL subscription;
                               Timeout := if TimeOutSeconds subscription =? 0 then 10
                                          else TimeOutSeconds subscription;
                               Payload := distData |}]).
Proof.
  simpl. unfold Sender.send.
  destruct (FindSubscription subid d) as [subscription|]; [|simpl; auto].
  pose proof (sendBody_frame subscription dist
                (increaseTotal (SubscriptionID subscription) w)) as [Hc Hp].
  destruct (sendBody subscription dist (increaseTotal (SubscriptionID subscription) w))
    as [[w2 errFinal] ret]. simpl in *.
  assert (Hs : Redis.strings (cache w2) = Redis.strings (cache w) ∧
               Redis.lists (cache w2) = Redis.lists (cache w)).
  { rewrite Hc. unfold increaseTotal, statIncrease. simpl. apply HIncrBy_frame. }
  assert (Hpost : posts w2 = posts w ∨
            exists subscription0 distData,
              Some subscription = Some subscription0 ∧
              json_Marshal dist = Go.Ok distData ∧
              posts w2 = posts w ++ [{| Method := "POST"; URL := CallbackURL subscription0;
                                        Timeout := if TimeOutSeconds subscription0 =? 0 then 10
                                                   else TimeOutSeconds subscription0;
                                        Payload := distData |}]).
  { destruct Hp as [Hp|(distData & Hm & Hp)]; [by left|]. right.
    exists subscription, distData. split; [reflexivity|]. split; [exact Hm|].
    exact Hp. }
  destruct errFinal as [e|]; simpl.
  - destruct (HIncrBy_frame (Types_.EventCacheDistCallBackCountPrefix
                             +:+ Go.Itoa (SubscriptionID subscription)) "failue" 1 (cache w2))
      as [H1 H2].
    rewrite H1, H2. destruct Hs as [Hs1 Hs2].
    split; [exact Hs1|]. split; [exact Hs2|]. split; [discriminate|exact Hpost].
  - destruct Hs as [Hs1 Hs2].
    split; [exact Hs1|]. split; [exact Hs2|]. split; [discriminate|exact Hpost].
Qed.

(** The queue of a subscriber is last in, first out: of two dists that
    [EventSender.Handle] queues for the same subscription, the loop of
    [run] pops the second one first. *)
Theorem Handle_queue_is_last_in_first_out (d1 d2 : DistInst) (a1 a2 : string)
    (c : Redis.Cache) :
  json_Marshal d1 = Go.Ok a1 -> json_Marshal d2 = Go.Ok a2 ->
  SubscriptionID_ d1 = SubscriptionID_ d2 ->
  let queue := Types_.EventCacheSubscriberEventQueueKeyPrefix
               +:+ Go.Itoa (SubscriptionID_ d1) in
  let c2 := fst (Handle json_Marshal (Some d2) (fst (Handle json_Marshal (Some d1) c))) in
  snd (Handle json_Marshal (Some d2) (fst (Handle json_Marshal (Some d1) c))) = None ∧
  Redis.LRange queue c2 = a2 :: a1 :: Redis.LRange queue c ∧
  fst (Redis.BLPop queue c2) = Some (queue, a2) ∧
  Redis.LRange queue (snd (Redis.BLPop queue c2)) = a1 :: Redis.LRange queue c.
Proof.
  intros H1 H2 Hid. simpl. unfold Sender.Handle. rewrite H1. simpl. rewrite H2, <- Hid.
  simpl. unfold Redis.LRange, Redis.BLPop, Redis.LPush. simpl.
  rewrite !lookup_insert_eq. simpl. rewrite lookup_insert_eq. repeat split; reflexivity.
Qed.

Lemma BLPop_frame (queue : string) (c : Redis.Cache) :
  Redis.strings (snd (Redis.BLPop queue c)) = Redis.strings c ∧
  Redis.hashes (snd (Redis.BLPop queue c)) = Redis.hashes c ∧
  (forall k, k ≠ queue ->
        Redis.lists (snd (Redis.BLPop queue c)) !! k = Redis.lists c !! k) ∧
  (snd (Redis.BLPop queue c) = c ∨
   exists x, fst (Redis.BLPop queue c) = Some (queue, x) ∧
             Redis.LRange queue c = x :: Redis.LRange queue (snd (Redis.BLPop queue c))).
Proof.
  unfold Redis.BLPop, Redis.LRange.
  destruct (Redis.lists c !! queue) as [[|x rest]|] eqn:E; simpl; auto.
  repeat split.
  - intros k Hne. destruct rest; [by rewrite lookup_delete_ne|by rewrite lookup_insert_ne].
  - right. exists x. split; [reflexivity|]. f_equal.
    destruct rest; [by rewrite lookup_delete_eq|by rewrite lookup_insert_eq].
Qed.

(** One turn of the loop of [run] takes at most the head off the queue of
    its own subscription and sends at most one request.  It never changes a
    string key of the cache (a dist id counter, a persisted cursor) nor the
    queue of another subscription or the main queue; and while the ring
    does not match the subscription it changes nothing at all. *)
Theorem run_turn_frame (hash : Hash) (subid : Z) (d : Distributer) (now : Go.Time) (w : World) :
  let queue := Types_.EventCacheSubscriberEventQueueKeyPrefix +:+ Go.Itoa subid in
  let w' := runIteration hash subid d now w in
  Redis.strings (cache w') = Redis.strings (cache w) ∧
  (forall k, k ≠ queue -> Redis.lists (cache w') !! k = Redis.lists (cache w) !! k) ∧
  (Redis.LRange queue (cache w') = Redis.LRange queue (cache w) ∨
   exists x, Redis.LRange queue (cache w) = x :: Redis.LRange queue (cache w')) ∧
  (posts w' = posts w ∨ exists req, posts w' = posts w ++ [req]) ∧
  (IsMatch hash (Go.Itoa subid) = false -> w' = w).
Proof.
  simpl. unfold Sender.runIteration.
  destruct (IsMatch hash (Go.Itoa subid)); simpl; [|by auto 10].
  set (queue := Types_.EventCacheSubscriberEventQueueKeyPrefix +:+ Go.Itoa subid).
  destruct (BLPop_frame queue (cache w)) as (Hs & _ & Hl & Hq).
  assert (Hq' : Redis.LRange queue (snd (Redis.BLPop queue (cache w)))
                = Redis.LRange queue (cache w) ∨
                exists x, Redis.LRange queue (cache w)
                          = x :: Redis.LRange queue (snd (Redis.BLPop queue (cache w)))).
  { destruct Hq as [->|(x & _ & Hx)]; [by left|right; by exists x]. }
  destruct (Redis.BLPop queue (cache w)) as [distDatas cache']. simpl in *.
  assert (Hdrop : Redis.strings cache' = Redis.strings (cache w) ∧
            (forall k, k ≠ queue -> Redis.lists cache' !! k = Redis.lists (cache w) !! k) ∧
            (Redis.LRange queue cache' = Redis.LRange queue (cache w) ∨
             exists x, Redis.LRange queue (cache w) = x :: Redis.LRange queue cache') ∧
            (posts w = posts w ∨ exists req, posts w = posts w ++ [req]) ∧
            (true = false -> {| cache := cache'; posts := posts w |} = w)).
  { repeat split; auto. discriminate. }
  destruct distDatas as [[key distData]|]; [|exact Hdrop].
  destruct (String.eqb distData Types_.NilStr || (String.length distData =? 0)%nat);
    [exact Hdrop|].
  destruct (json_Unmarshal distData) as [dist|e]; [|exact Hdrop].
  destruct (_ >? _); [exact Hdrop|].
  destruct (send_frame subid d dist {| cache := cache'; posts := posts w |})
    as (Hss & Hsl & _ & Hsp). simpl in *.
  set (w' := fst (send subid d dist {| cache := cache'; posts := posts w |})) in *.
  split; [by rewrite Hss|].
  split; [intros k Hne; rewrite Hsl; by apply Hl|].
  split; [unfold Redis.LRange in *; by rewrite Hsl|].
  split; [|discriminate].
  destruct Hsp as [Hsp|(subscription & distData' & _ & _ & Hsp)]; [by left|].
  right. eexists. exact Hsp.
Qed.

End Send.

(** The callback of subscription 7 answers 200, which is its pattern. *)
Lemma send_succeeds_iff_confirmed_witness :
  snd (send Sample.marshal Sample.urlParse Sample.answer200 string Sample.compile
         Sample.prefixMatch 7 Sample.registered Sample.staleDist Sample.idle) = None.
Proof.
  apply (proj2 (send_succeeds_iff_confirmed Sample.marshal Sample.urlParse Sample.answer200
                  string Sample.compile Sample.prefixMatch 7 Sample.registered
                  Sample.staleDist Sample.idle Sample.storedSubscription eq_refl)).
  eexists _, _, _. split; [reflexivity|]. left. split; reflexivity.
Defined.

(** The callback of subscription 7 cannot be reached. *)
Lemma send_counts_failure_before_confirmation_witness :
  failue 7 (fst (send Sample.marshal Sample.urlParse Sample.refused string Sample.compile
                   Sample.prefixMatch 7 Sample.registered Sample.staleDist Sample.idle))
  = failue 7 Sample.idle + 1.
Proof.
  refine (proj2 (send_counts_failure_before_confirmation Sample.marshal Sample.urlParse
                   Sample.refused string Sample.compile Sample.prefixMatch 7
                   Sample.registered Sample.staleDist Sample.idle Sample.storedSubscription
                   eq_refl _ _)).
  - vm_compute. split; [discriminate|reflexivity].
  - left. reflexivity.
Defined.

(** A send for an id that the distributer does not know. *)
Lemma send_frame_witness :
  fst (send Sample.marshal Sample.urlParse Sample.answer200 string Sample.compile
         Sample.prefixMatch 7 NewDistributer Sample.staleDist Sample.idle) = Sample.idle.
Proof.
  refine (proj1 (proj2 (proj2 (send_frame Sample.marshal Sample.urlParse Sample.answer200
                                 string Sample.compile Sample.prefixMatch 7 NewDistributer
                                 Sample.staleDist Sample.idle))) _).
  reflexivity.
Defined.

(** Two dists are queued for subscription 7. *)
Lemma Handle_queue_is_last_in_first_out_witness :
  fst (Redis.BLPop (Types_.EventCacheSubscriberEventQueueKeyPrefix +:+ Go.Itoa 7)
         (fst (Handle Sample.marshal (Some Sample.secondDist)
                 (fst (Handle Sample.marshal (Some Sample.staleDist) Redis.empty)))))
  = Some (Types_.EventCacheSubscriberEventQueueKeyPrefix +:+ Go.Itoa 7, "dist-2").
Proof.
  refine (proj1 (proj2 (proj2 (Handle_queue_is_last_in_first_out Sample.marshal
                                 Sample.staleDist Sample.secondDist "dist-1" "dist-2"
                                 Redis.empty _ _ _)))); reflexivity.
Defined.

(** The ring does not match subscription 7: its queue stays as it is. *)
Lemma run_turn_frame_witness :
  runIteration Sample.marshal Sample.unmarshal Sample.urlParse Sample.answer200 string
    Sample.compile Sample.prefixMatch Sample.otherRing 7 Sample.registered
    {| Go.Unix := 1001 |} Sample.queued
  = Sample.queued.
Proof.
  refine (proj2 (proj2 (proj2 (proj2
            (run_turn_frame Sample.marshal Sample.unmarshal Sample.urlParse Sample.answer200
               string Sample.compile Sample.prefixMatch Sample.otherRing 7
               Sample.registered {| Go.Unix := 1001 |} Sample.queued)))) _).
  reflexivity.
Defined.

End SenderExtra.

(** ** event.go: the handler, from the main queue to the senders *)
Module HandlerExtra.
Import Metadata Distribution Handler.

Lemma Atoi_Itoa (n : Z) : Go.Atoi (Go.Itoa n) = Some n.
Proof.
  unfold Go.Atoi, Go.Itoa.
  rewrite NilZero.isi.
  - rewrite DecimalZ.of_to. by rewrite String.eqb_refl.
  - destruct n; simpl; try discriminate.
    intros H. injection H as H. by apply Unsigned.to_uint_nonnil in H.
  - destruct n; simpl; try discriminate.
    intros H. injection H as H. by apply Unsigned.to_uint_nonnil in H.
Qed.

Lemma Itoa_inj (a b : Z) : Go.Itoa a = Go.Itoa b -> a = b.
Proof.
  intros H. pose proof (Atoi_Itoa a) as Ha. rewrite H, Atoi_Itoa in Ha. congruence.
Qed.

Lemma append_inj (p a b : string) : p +:+ a = p +:+ b -> a = b.
Proof. induction p as [|c p IH]; simpl; [done|]. intros H. injection H as H. by apply IH. Qed.

Lemma key_inj (p : string) (a b : Z) : p +:+ Go.Itoa a = p +:+ Go.Itoa b -> a = b.
Proof. intros H. by apply Itoa_inj, (append_inj p). Qed.

Section Handle.

Variable json_Marshal : marshalable -> Go.result string.

Lemma handleOne_queue (now : Go.Time) (c : Redis.Cache) (event : Watch.WatchEventDetail) :
  Redis.LRange Types_.EventCacheEventQueueKey (handleOne json_Marshal now c event)
  = pushedDocuments json_Marshal now [event]
    ++ Redis.LRange Types_.EventCacheEventQueueKey c ∧
  Redis.strings (handleOne json_Marshal now c event) = Redis.strings c ∧
  Redis.hashes (handleOne json_Marshal now c event) = Redis.hashes c ∧
  forall k, k ≠ Types_.EventCacheEventQueueKey ->
       Redis.lists (handleOne json_Marshal now c event) !! k = Redis.lists c !! k.
Proof.
  unfold handleOne, pushedDocuments. simpl.
  destruct (eventInstOf now event) as [eventInst|]; [|by auto].
  destruct (json_Marshal (OfWatchEventDetail event)) as [eventData|e]; [|by auto].
  unfold Redis.LPush, Redis.LRange. simpl. rewrite lookup_insert_eq.
  repeat split. intros k Hne. by rewrite lookup_insert_ne.
Qed.

Lemma pushedDocuments_cons (now : Go.Time) (event : Watch.WatchEventDetail)
    (events : list Watch.WatchEventDetail) :
  pushedDocuments json_Marshal now (event :: events)
  = pushedDocuments json_Marshal now [event] ++ pushedDocuments json_Marshal now events.
Proof.
  unfold pushedDocuments. simpl.
  destruct (eventInstOf now event); [|reflexivity].
  by destruct (json_Marshal (OfWatchEventDetail event)).
Qed.

Lemma Handle_effect (now : Go.Time) (events : list Watch.WatchEventDetail)
    (c : Redis.Cache) :
  let c' := fst (Handle json_Marshal now events c) in
  snd (Handle json_Marshal now events c) = None ∧
  Redis.LRange Types_.EventCacheEventQueueKey c'
  = rev (pushedDocuments json_Marshal now events)
    ++ Redis.LRange Types_.EventCacheEventQueueKey c ∧
  Redis.strings c' = Redis.strings c ∧
  Redis.hashes c' = Redis.hashes c ∧
  forall k, k ≠ Types_.EventCacheEventQueueKey -> Redis.lists c' !! k = Redis.lists c !! k.
Proof.
  simpl. split; [reflexivity|]. revert c.
  induction events as [|event events IH]; intros c; [by auto|].
  change (foldl (handleOne json_Marshal now) c (event :: events))
    with (foldl (handleOne json_Marshal now) (handleOne json_Marshal now c event) events).
  destruct (IH (handleOne json_Marshal now c event)) as (Hq & Hs & Hh & Hl).
  destruct (handleOne_queue now c event) as (Hq1 & Hs1 & Hh1 & Hl1).
  rewrite Hq, Hs, Hh, Hq1, Hs1, Hh1.
  rewrite (pushedDocuments_cons now event events), rev_app_distr.
  assert (Hr : rev (pushedDocuments json_Marshal now [event])
               = pushedDocuments json_Marshal now [event]).
  { unfold pushedDocuments. simpl. destruct (eventInstOf now event); [|reflexivity].
    by destruct (json_Marshal (OfWatchEventDetail event)). }
  rewrite Hr. repeat split; [by rewrite <- app_assoc|].
  intros k Hne. rewrite Hl by exact Hne. by apply Hl1.
Qed.

(** [Handle] never fails.  It pushes to the main queue, and to nothing
    else in the cache, one document for every event of a known resource and
    event type that marshals, in the order of the events (the document of
    the last event is at the head), in front of what the queue held; an
    event of an unknown resource or event type among the others is passed
    over. *)
Theorem Handle_pushes_in_order (now : Go.Time) (events : list Watch.WatchEventDetail)
    (c : Redis.Cache) :
  let c' := fst (Handle json_Marshal now events c) in
  snd (Handle json_Marshal now events c) = None ∧
  Redis.LRange Types_.EventCacheEventQueueKey c'
  = rev (pushedDocuments json_Marshal now events)
    ++ Redis.LRange Types_.EventCacheEventQueueKey c ∧
  Redis.strings c' = Redis.strings c ∧
  Redis.hashes c' = Redis.hashes c ∧
  forall k, k ≠ Types_.EventCacheEventQueueKey -> Redis.lists c' !! k = Redis.lists c !! k.
Proof. apply Handle_effect. Qed.

End Handle.

(** A dist that [getDistInst] returns is the event with the dist ids at
    zero: the cursor, the event type, the action and its time, and the data
    are the event's; only the object type may differ.  An event that is not
    an instance-data event of the generic object gets exactly this dist,
    with its own object type, and neither an error nor a panic. *)
Theorem getDistInst_carries_event (event : EventInst) :
  (forall dists err dist,
      getDistInst event = Go.Returns (dists, err) -> dist ∈ dists ->
      dists = [dist] ∧ err = None ∧
      setObjType (ObjType event) dist = {| Inst := event; DstbID := 0; SubscriptionID_ := 0 |}) ∧
  (EventType event ≠ EventTypeInstData ∨ ObjType event ≠ BKInnerObjIDObject ->
   getDistInst event
   = Go.Returns ([{| Inst := event; DstbID := 0; SubscriptionID_ := 0 |}], None)).
Proof.
  assert (Hsame : setObjType (ObjType event) {| Inst := event; DstbID := 0; SubscriptionID_ := 0 |}
                  = {| Inst := event; DstbID := 0; SubscriptionID_ := 0 |}).
  { by destruct event. }
  assert (Hset : forall t, setObjType (ObjType event)
                   (setObjType t {| Inst := event; DstbID := 0; SubscriptionID_ := 0 |})
                 = {| Inst := event; DstbID := 0; SubscriptionID_ := 0 |}).
  { intros t. by destruct event. }
  split.
  - intros dists err dist. unfold getDistInst.
    repeat match goal with
           | |- context [if ?b then _ else _] => destruct b
           | |- context [match ?x with _ => _ end] => destruct x
           end;
      intros H Hin; try discriminate; injection H as <- <-;
      try (by apply not_elem_of_nil in Hin);
      apply list_elem_of_singleton in Hin as ->; auto.
  - intros Hor. unfold getDistInst.
    destruct (String.eqb_spec (EventType event) EventTypeInstData) as [Ht|Ht];
      destruct (String.eqb_spec (ObjType event) BKInnerObjIDObject) as [Ho|Ho];
      simpl; try reflexivity.
    destruct Hor; contradiction.
Qed.

(** A created host is not an object event. *)
Lemma getDistInst_carries_event_witness :
  getDistInst (Inst Sample.staleDist)
  = Go.Returns ([{| Inst := Inst Sample.staleDist; DstbID := 0; SubscriptionID_ := 0 |}], None).
Proof.
  refine (proj2 (getDistInst_carries_event (Inst Sample.staleDist)) _).
  right. discriminate.
Defined.

Lemma BRPopLPush_tail (source destination v : string) (front : list string)
    (c : Redis.Cache) :
  source ≠ destination ->
  Redis.LRange source c = front ++ [v] ->
  fst (Redis.BRPopLPush source destination c) = Go.Ok v ∧
  Redis.LRange source (snd (Redis.BRPopLPush source destination c)) = front ∧
  Redis.LRange destination (snd (Redis.BRPopLPush source destination c))
  = v :: Redis.LRange destination c.
Proof.
  intros Hne Hq. unfold Redis.BRPopLPush. rewrite Hq, rev_app_distr. simpl.
  split; [reflexivity|]. unfold Redis.LRange. simpl. rewrite lookup_insert_eq.
  rewrite lookup_insert_ne by congruence.
  destruct (rev front) as [|x xs] eqn:Er.
  - rewrite lookup_delete_eq, lookup_delete_ne by exact Hne. split; [|reflexivity].
    simpl. destruct front as [|y ys]; [reflexivity|].
    simpl in Er. by destruct (rev ys).
  - rewrite lookup_insert_eq, lookup_insert_ne by exact Hne. split; [|reflexivity].
    rewrite <- Er, rev_involutive. reflexivity.
Qed.

Lemma queues_differ :
  Types_.EventCacheEventQueueKey ≠ Types_.EventCacheEventQueueDuplicateKey.
Proof. discriminate. Qed.

Section Distribute.

Variable json_Marshal : DistInst -> Go.result string.
Variable json_Unmarshal : string -> Go.result EventInst.
Variable ring : Sender.Hash.
Variable FindSubscribers : string -> list Z.
Variable GetType : DistInst -> string.

Local Abbreviation pushToSender := (pushToSender json_Marshal).
Local Abbreviation distribute := (distribute json_Marshal ring).
Local Abbreviation distributeAll := (distributeAll json_Marshal ring FindSubscribers GetType).
Local Abbreviation handleEvent := (handleEvent json_Marshal ring FindSubscribers GetType).
Local Abbreviation popEvent := (popEvent json_Unmarshal).
Local Abbreviation decoded := (decoded json_Unmarshal).

Lemma popEvent_tail (c : Redis.Cache) (front : list string) (v : string) :
  Redis.LRange Types_.EventCacheEventQueueKey c = front ++ [v] ->
  snd (popEvent c) = decoded v ∧
  Redis.LRange Types_.EventCacheEventQueueKey (fst (popEvent c)) = front ∧
  Redis.LRange Types_.EventCacheEventQueueDuplicateKey (fst (popEvent c))
  = v :: Redis.LRange Types_.EventCacheEventQueueDuplicateKey c.
Proof.
  intros Hq.
  destruct (BRPopLPush_tail _ _ v front c queues_differ Hq) as (Hv & Hs & Hd).
  unfold Handler.popEvent, Handler.decoded.
  destruct (Redis.BRPopLPush Types_.EventCacheEventQueueKey
              Types_.EventCacheEventQueueDuplicateKey c) as [r c']. simpl in *. subst r.
  destruct (String.eqb v "" || String.eqb v Types_.NilStr); [by auto|].
  by destruct (json_Unmarshal v).
Qed.

(** [popEvent] takes the document at the tail of the main queue, the one
    that has been there longest, puts it at the head of the duplicate
    queue, and returns what it decodes to; it does so also when the
    document does not decode, which is then lost to the handler.  With an
    empty main queue it returns the error [redis.Nil] and changes
    nothing. *)
Theorem popEvent_takes_oldest (c : Redis.Cache) :
  (Redis.LRange Types_.EventCacheEventQueueKey c = [] ->
   popEvent c = (c, (None, Some Redis.Nil))) ∧
  (forall front v,
      Redis.LRange Types_.EventCacheEventQueueKey c = front ++ [v] ->
      snd (popEvent c) = decoded v ∧
      Redis.LRange Types_.EventCacheEventQueueKey (fst (popEvent c)) = front ∧
      Redis.LRange Types_.EventCacheEventQueueDuplicateKey (fst (popEvent c))
      = v :: Redis.LRange Types_.EventCacheEventQueueDuplicateKey c).
Proof.
  split.
  - intros Hq. unfold Handler.popEvent, Redis.BRPopLPush. by rewrite Hq.
  - intros front v Hq. by apply popEvent_tail.
Qed.

(** [pushToSender] stamps the dist with the subscription id and with the
    next dist id: when the counter of the subscription stands at [n], the
    dist that goes to the head of the subscriber's queue carries [n + 1],
    the counter then stands at [n + 1], and the subscription has a sender.
    Successive dists of a subscription so get successive ids. *)
Theorem pushToSender_stamps_next_id (subid n : Z) (dist : DistInst) (st : State) (a : string) :
  let counter := Types_.EventCacheDistIDPrefix +:+ Go.Itoa subid in
  let queue := Types_.EventCacheSubscriberEventQueueKeyPrefix +:+ Go.Itoa subid in
  Redis.Counter counter (redis st) = Some n ->
  - 2 ^ 63 <= n < 2 ^ 63 - 1 ->
  json_Marshal (stamp (n + 1) subid dist) = Go.Ok a ->
  let st' := fst (pushToSender subid dist st) in
  snd (pushToSender subid dist st) = None ∧
  subid ∈ senders st' ∧
  Redis.LRange queue (redis st') = a :: Redis.LRange queue (redis st) ∧
  Redis.Counter counter (redis st') = Some (n + 1).
Proof.
  intros counter queue Hn Hrange Hm. simpl.
  unfold Handler.pushToSender, nextDistID, Redis.Incr.
  fold counter. unfold Redis.Counter in Hn. rewrite Hn.
  rewrite bool_decide_true by exact Hrange.
  unfold Sender.Handle. rewrite Hm. simpl. fold queue.
  split; [reflexivity|]. split.
  - destruct (decide (subid ∈ senders st)); [assumption|].
    apply elem_of_union. left. by apply elem_of_singleton.
  - unfold Redis.LRange, Redis.Counter, Redis.LPush. simpl.
    rewrite !lookup_insert_eq. split; [reflexivity|apply Atoi_Itoa].
Qed.

Lemma pushToSender_other (s subid : Z) (dist : DistInst) (st : State) :
  s ≠ subid ->
  let st' := fst (pushToSender s dist st) in
  (subid ∈ senders st' <-> subid ∈ senders st) ∧
  Redis.lists (redis st')
    !! (Types_.EventCacheSubscriberEventQueueKeyPrefix +:+ Go.Itoa subid)
  = Redis.lists (redis st)
    !! (Types_.EventCacheSubscriberEventQueueKeyPrefix +:+ Go.Itoa subid) ∧
  Redis.strings (redis st') !! (Types_.EventCacheDistIDPrefix +:+ Go.Itoa subid)
  = Redis.strings (redis st) !! (Types_.EventCacheDistIDPrefix +:+ Go.Itoa subid) ∧
  Redis.hashes (redis st') = Redis.hashes (redis st).
Proof.
  intros Hne. simpl.
  assert (Hsend : subid ∈ (if decide (s ∈ senders st) then senders st
                           else {[s]} ∪ senders st) <-> subid ∈ senders st).
  { destruct (decide (s ∈ senders st)); [reflexivity|].
    rewrite elem_of_union, elem_of_singleton. split; [intros [?|?]; [congruence|done]|auto]. }
  assert (Hq : Types_.EventCacheSubscriberEventQueueKeyPrefix +:+ Go.Itoa s
               ≠ Types_.EventCacheSubscriberEventQueueKeyPrefix +:+ Go.Itoa subid).
  { intros H. by apply key_inj in H. }
  assert (Hc : Types_.EventCacheDistIDPrefix +:+ Go.Itoa s
               ≠ Types_.EventCacheDistIDPrefix +:+ Go.Itoa subid).
  { intros H. by apply key_inj in H. }
  unfold Handler.pushToSender, nextDistID, Redis.Incr.
  destruct (match Redis.strings (redis st) !! _ with Some _ => _ | None => _ end) as [n|];
    [|simpl; by auto].
  case_bool_decide; [|simpl; by auto].
  unfold Sender.Handle. simpl.
  destruct (json_Marshal (stamp (n + 1) s dist)) as [a|e]; simpl.
  - rewrite lookup_insert_ne by exact Hq. rewrite lookup_insert_ne by exact Hc. by auto.
  - rewrite lookup_insert_ne by exact Hc. by auto.
Qed.

Lemma distribute_other (dist : DistInst) (subid : Z) (l : list Z) :
  Sender.IsMatch ring (Go.Itoa subid) = false ->
  forall st : State,
    let st' := fst (distribute dist l st) in
    (subid ∈ senders st' <-> subid ∈ senders st) ∧
    Redis.lists (redis st')
      !! (Types_.EventCacheSubscriberEventQueueKeyPrefix +:+ Go.Itoa subid)
    = Redis.lists (redis st)
      !! (Types_.EventCacheSubscriberEventQueueKeyPrefix +:+ Go.Itoa subid) ∧
    Redis.strings (redis st') !! (Types_.EventCacheDistIDPrefix +:+ Go.Itoa subid)
    = Redis.strings (redis st) !! (Types_.EventCacheDistIDPrefix +:+ Go.Itoa subid) ∧
    Redis.hashes (redis st') = Redis.hashes (redis st).
Proof.
  intros Hring. induction l as [|s l IH]; intros st; simpl; [by auto|].
  destruct (Sender.IsMatch ring (Go.Itoa s)) eqn:Es; simpl; [|apply IH].
  assert (Hne : s ≠ subid) by (intros ->; congruence).
  pose proof (pushToSender_other s subid dist st Hne) as Hp. simpl in Hp.
  destruct (pushToSender s dist st) as [st1 [err|]]; simpl in *; [exact Hp|].
  destruct (IH st1) as (H1 & H2 & H3 & H4). destruct Hp as (P1 & P2 & P3 & P4).
  rewrite H1, H2, H3, H4. by auto.
Qed.

Lemma distributeAll_other (subid : Z) (dists : list DistInst) :
  Sender.IsMatch ring (Go.Itoa subid) = false ->
  forall st : State,
    let st' := fst (distributeAll dists st) in
    (subid ∈ senders st' <-> subid ∈ senders st) ∧
    Redis.lists (redis st')
      !! (Types_.EventCacheSubscriberEventQueueKeyPrefix +:+ Go.Itoa subid)
    = Redis.lists (redis st)
      !! (Types_.EventCacheSubscriberEventQueueKeyPrefix +:+ Go.Itoa subid) ∧
    Redis.strings (redis st') !! (Types_.EventCacheDistIDPrefix +:+ Go.Itoa subid)
    = Redis.strings (redis st) !! (Types_.EventCacheDistIDPrefix +:+ Go.Itoa subid) ∧
    Redis.hashes (redis st') = Redis.hashes (redis st).
Proof.
  intros Hring. induction dists as [|dist dists IH]; intros st; simpl; [by auto|].
  pose proof (distribute_other dist subid (FindSubscribers (GetType dist)) Hring st) as Hp.
  simpl in Hp.
  destruct (distribute dist (FindSubscribers (GetType dist)) st) as [st1 [err|]];
    simpl in *; [exact Hp|].
  destruct (IH st1) as (H1 & H2 & H3 & H4). destruct Hp as (P1 & P2 & P3 & P4).
  rewrite H1, H2, H3, H4. by auto.
Qed.

(** [handleEvent] keeps to the ring.  For a subscription that the ring
    does not match, whatever the event and whoever subscribes to it, the
    call creates no sender, puts nothing on its queue and does not move its
    dist id counter. *)
Theorem handleEvent_keeps_to_ring (event : EventInst) (st st' : State)
    (err : option Go.error) (subid : Z) :
  handleEvent event st = Go.Returns (st', err) ->
  Sender.IsMatch ring (Go.Itoa subid) = false ->
  (subid ∈ senders st' <-> subid ∈ senders st) ∧
  Redis.LRange (Types_.EventCacheSubscriberEventQueueKeyPrefix +:+ Go.Itoa subid) (redis st')
  = Redis.LRange (Types_.EventCacheSubscriberEventQueueKeyPrefix +:+ Go.Itoa subid)
      (redis st) ∧
  Redis.Counter (Types_.EventCacheDistIDPrefix +:+ Go.Itoa subid) (redis st')
  = Redis.Counter (Types_.EventCacheDistIDPrefix +:+ Go.Itoa subid) (redis st).
Proof.
  intros Hh Hring. unfold Handler.handleEvent in Hh.
  destruct (getDistInst event) as [[dists [e|]]|msg]; try discriminate.
  - injection Hh as <- <-. by auto.
  - pose proof (distributeAll_other subid dists Hring st) as Hp. simpl in Hp.
    rewrite <- surjective_pairing in Hh || idtac.
    destruct (distributeAll dists st) as [st1 err1]. injection Hh as <- <-. simpl in Hp.
    destruct Hp as (P1 & P2 & P3 & P4). unfold Redis.LRange, Redis.Counter.
    by rewrite P2, P3.
Qed.

End Distribute.

(** The main queue is first in, first out: after [Handle] has pushed the
    documents of a batch of events to an empty main queue, [popEvent] takes
    the document of the first of them, leaves the others in their order,
    and puts it at the head of the duplicate queue. *)
Theorem main_queue_first_in_first_out (json_Marshal : marshalable -> Go.result string)
    (json_Unmarshal : string -> Go.result EventInst) (now : Go.Time)
    (events : list Watch.WatchEventDetail) (c : Redis.Cache) (first : string)
    (rest : list string) :
  Redis.LRange Types_.EventCacheEventQueueKey c = [] ->
  pushedDocuments json_Marshal now events = first :: rest ->
  let popped := popEvent json_Unmarshal (fst (Handle json_Marshal now events c)) in
  snd popped = decoded json_Unmarshal first ∧
  Redis.LRange Types_.EventCacheEventQueueKey (fst popped) = rev rest ∧
  Redis.LRange Types_.EventCacheEventQueueDuplicateKey (fst popped)
  = first :: Redis.LRange Types_.EventCacheEventQueueDuplicateKey c.
Proof.
  intros Hempty Hdocs. simpl.
  destruct (Handle_effect json_Marshal now events c) as (_ & Hq & _ & _ & Hl).
  rewrite Hdocs, Hempty, app_nil_r in Hq. simpl in Hq.
  destruct (popEvent_tail json_Unmarshal _ _ _ Hq) as (H1 & H2 & H3).
  split; [exact H1|]. split; [exact H2|]. rewrite H3. f_equal.
  unfold Redis.LRange. rewrite Hl; [reflexivity|]. intros H. by apply queues_differ.
Qed.

(** The main queue holds two documents; the older one is "first". *)
Lemma popEvent_takes_oldest_witness :
  Redis.LRange Types_.EventCacheEventQueueKey
    (fst (popEvent Sample.unmarshalEvent
            (Redis.LPush Types_.EventCacheEventQueueKey "second"
               (Redis.LPush Types_.EventCacheEventQueueKey "first" Redis.empty))))
  = ["second"].
Proof.
  refine (proj1 (proj2 (proj2 (popEvent_takes_oldest Sample.unmarshalEvent _)
                          ["second"] "first" _))).
  reflexivity.
Defined.

(** The counter of subscription 7 is fresh: its first dist gets the id 1. *)
Lemma pushToSender_stamps_next_id_witness :
  Redis.Counter (Types_.EventCacheDistIDPrefix +:+ Go.Itoa 7)
    (redis (fst (pushToSender Sample.marshal 7 Sample.secondDist Sample.fresh)))
  = Some (0 + 1).
Proof.
  refine (proj2 (proj2 (proj2 (pushToSender_stamps_next_id Sample.marshal 7 0
                                 Sample.secondDist Sample.fresh "dist-1" _ _ _)))).
  - reflexivity.
  - lia.
  - reflexivity.
Defined.

(** Subscriptions 7 and 8 subscribe, the ring matches 7 only. *)
Lemma handleEvent_keeps_to_ring_witness :
  exists st' err,
    handleEvent Sample.marshal Sample.ringOf7 Sample.everyone Sample.typeOf
      (Inst Sample.staleDist) Sample.fresh = Go.Returns (st', err) ∧
    (8 ∈ senders st' <-> 8 ∈ senders Sample.fresh) ∧
    Redis.LRange (Types_.EventCacheSubscriberEventQueueKeyPrefix +:+ Go.Itoa 8) (redis st')
    = Redis.LRange (Types_.EventCacheSubscriberEventQueueKeyPrefix +:+ Go.Itoa 8)
        (redis Sample.fresh) ∧
    Redis.Counter (Types_.EventCacheDistIDPrefix +:+ Go.Itoa 8) (redis st')
    = Redis.Counter (Types_.EventCacheDistIDPrefix +:+ Go.Itoa 8) (redis Sample.fresh).
Proof.
  eexists _, _. split; [vm_compute; reflexivity|].
  refine (handleEvent_keeps_to_ring Sample.marshal Sample.ringOf7 Sample.everyone
            Sample.typeOf (Inst Sample.staleDist) Sample.fresh _ _ 8 _ _).
  - vm_compute. reflexivity.
  - reflexivity.
Defined.

(** A host is created, then updated, then deleted; the batch of the three
    events is handled and one event is popped: the document of the creation
    leaves the main queue for the duplicate queue, and the documents of the
    update and of the deletion stay, the deletion at the head. *)
Lemma main_queue_first_in_first_out_witness :
  Redis.LRange Types_.EventCacheEventQueueKey
    (fst (popEvent Sample.unmarshalEvent
            (fst (Handle Sample.marshalEvent {| Go.Unix := 1000 |}
                    [Sample.hostCreated; Sample.hostUpdated; Sample.hostDeleted]
                    Redis.empty))))
  = ["watch-event-detail c3 host delete"; "watch-event-detail c2 host update"] ∧
  Redis.LRange Types_.EventCacheEventQueueDuplicateKey
    (fst (popEvent Sample.unmarshalEvent
            (fst (Handle Sample.marshalEvent {| Go.Unix := 1000 |}
                    [Sample.hostCreated; Sample.hostUpdated; Sample.hostDeleted]
                    Redis.empty))))
  = "watch-event-detail c1 host create" :: Redis.LRange Types_.EventCacheEventQueueDuplicateKey Redis.empty.
Proof.
  refine (proj2 (main_queue_first_in_first_out Sample.marshalEvent
                   Sample.unmarshalEvent {| Go.Unix := 1000 |}
                   [Sample.hostCreated; Sample.hostUpdated; Sample.hostDeleted]
                   Redis.empty "watch-event-detail c1 host create"
                   ["watch-event-detail c2 host update"; "watch-event-detail c3 host delete"]
                   _ _)).
  - reflexivity.
  - reflexivity.
Defined.

End HandlerExtra.
